(** * report/id.go: node, edge and adjacency identifiers

    A shallow embedding of the identifier scheme of package [report]
    (file [report/id.go]) together with the parts of Go's [strings] and
    [net] packages the file calls, and the properties of the scheme.

    Go strings are byte sequences: they are [string]s here (lists of 8-bit
    [ascii]).  Go's [int] values are in [Z], lengths and positions of
    strings in [nat].  An absent position (Go's [-1]) and an absent address
    (Go's [nil] [net.IP]) are [None].  A function of [id.go] that indexes or
    slices, where the Go runtime can panic, runs in the monad [exec]. *)

From Stdlib Require Import String Ascii List ZArith Lia Bool.
Import ListNotations.
Open Scope string_scope.

(** ** Runs that may panic *)

(** What a Go panic carries: a run-time error of an index or slice
    expression, or the value handed to [panic].  The only such value in
    [id.go] is the result of [fmt.Sprintf]; the format and its operands are
    kept as they are written. *)
Inductive PanicValue : Type :=
| IndexOutOfRange (i len : nat)
| SliceBoundsOutOfRange (lo len : nat)
| Sprintf (format : string) (args : list string).

Inductive exec (A : Type) : Type :=
| Returns (a : A)
| Panics (v : PanicValue).
Arguments Returns {A} a.
Arguments Panics {A} v.

Definition bind {A B : Type} (m : exec A) (k : A -> exec B) : exec B :=
  match m with
  | Returns a => k a
  | Panics v => Panics v
  end.

Notation "x <- m ;; k" := (bind m (fun x => k))
  (at level 61, m at next level, right associativity).

(** [fields[i]] on a slice of strings. *)
Definition at_index (fields : list string) (i : nat) : exec string :=
  match nth_error fields i with
  | Some f => Returns f
  | None => Panics (IndexOutOfRange i (List.length fields))
  end.

(** [s[lo:]] on a string, without the bounds check. *)
Fixpoint drop (lo : nat) (s : string) : string :=
  match lo, s with
  | O, _ => s
  | S _, EmptyString => EmptyString
  | S lo', String _ s' => drop lo' s'
  end.

(** [s[lo:]] as the Go runtime evaluates it. *)
Definition slice_from (s : string) (lo : nat) : exec string :=
  if (lo <=? String.length s)%nat then Returns (drop lo s)
  else Panics (SliceBoundsOutOfRange lo (String.length s)).

(** ** Package strings *)

Module strings.

(** [strings.HasPrefix]. *)
Definition HasPrefix (s pre : string) : bool := String.prefix pre s.

(** [strings.Index]: the position of the first instance of [substr] in
    [s]; [None] stands for [-1]. *)
Fixpoint Index (s substr : string) : option nat :=
  if String.prefix substr s then Some 0
  else match s with
       | EmptyString => None
       | String _ s' => option_map S (Index s' substr)
       end.

(** [strings.Contains]. *)
Definition Contains (s substr : string) : bool :=
  match Index s substr with
  | Some _ => true
  | None => false
  end.

(** [strings.Count] for a non-empty [sep]: the loop
    [for { i := Index(s, sep); if i == -1 { return n }; n++; s = s[i+len(sep):] }].
    Every round shortens [s], so [length s + 1] rounds are enough. *)
Fixpoint count_loop (fuel : nat) (s sep : string) : nat :=
  match fuel with
  | O => 0
  | S fuel' =>
      match Index s sep with
      | None => 0
      | Some i => S (count_loop fuel' (drop (i + String.length sep) s) sep)
      end
  end.

Definition Count (s sep : string) : nat :=
  count_loop (S (String.length s)) s sep.

(** The loop of [genSplit], with [k] the number of cuts still allowed
    ([n - 1 - i] in the source):
    [for i < n { m := Index(s, sep); if m < 0 { break };
                 a[i] = s[:m]; s = s[m+len(sep):]; i++ }; a[i] = s]. *)
Fixpoint split_loop (k : nat) (s sep : string) : list string :=
  match k with
  | O => [s]
  | S k' =>
      match Index s sep with
      | None => [s]
      | Some m =>
          substring 0 m s :: split_loop k' (drop (m + String.length sep) s) sep
      end
  end.

(** [explode], the branch of [genSplit] for an empty separator, cuts [s]
    into its UTF-8 sequences.  Both separators of [id.go] are non-empty
    constants, so the branch is never taken from this package; it is given
    here for strings of single-byte characters. *)
Fixpoint explode_loop (k : nat) (s : string) : list string :=
  match k, s with
  | O, _ => []
  | S O, _ => [s]
  | S _, EmptyString => []
  | S k', String c s' => String c EmptyString :: explode_loop k' s'
  end.

Definition explode (s : string) (n : Z) : list string :=
  let l := String.length s in
  let n := if (n <? 0)%Z || (Z.of_nat l <? n)%Z then l else Z.to_nat n in
  explode_loop n s.

(** [genSplit(s, sep, 0, n)]. *)
Definition genSplit (s sep : string) (n : Z) : list string :=
  if (n =? 0)%Z then []
  else if String.eqb sep EmptyString then explode s n
  else
    let n := if (n <? 0)%Z then Count s sep + 1 else Z.to_nat n in
    let n := if (String.length s + 1 <? n)%nat then String.length s + 1 else n in
    split_loop (n - 1) s sep.

(** [strings.SplitN] and [strings.Split]. *)
Definition SplitN (s sep : string) (n : Z) : list string := genSplit s sep n.
Definition Split (s sep : string) : list string := genSplit s sep (-1).

(** [strings.Join]: the first element, then
    [for _, s := range a[1:] { b += sep; b += s }]. *)
Definition Join (a : list string) (sep : string) : string :=
  match a with
  | [] => EmptyString
  | a0 :: rest => fold_left (fun b s => b ++ sep ++ s) rest a0
  end.

End strings.

(** ** Package net

    The address parser of Go's [net] package ([ip.go] and [parse.go]), as
    [net.ParseIP] is written before it was moved onto [netip].  A [net.IP]
    is a byte slice; [net.ParseIP] answers [nil] ([None] here) for a string
    that is not an IP literal, and the 16-byte form otherwise. *)

Module net.

Definition IP : Type := list Z.

Definition IPv4len : nat := 4.
Definition IPv6len : nat := 16.

Definition v4InV6Prefix : IP := [0; 0; 0; 0; 0; 0; 0; 0; 0; 0; 0xff; 0xff]%Z.

(** [net.IPv4(a, b, c, d)]. *)
Definition IPv4 (a b c d : Z) : IP := (v4InV6Prefix ++ [a; b; c; d])%list.

Definition IPv6loopback : IP := [0; 0; 0; 0; 0; 0; 0; 0; 0; 0; 0; 0; 0; 0; 0; 1]%Z.

(** [int(c)] of a byte of a string, and the conversion [byte(n)]. *)
Definition code (c : ascii) : Z := Z.of_N (N_of_ascii c).
Definition byte (n : Z) : Z := (n mod 256)%Z.

Definition between (lo hi c : ascii) : bool :=
  ((code lo <=? code c) && (code c <=? code hi))%Z.

(** Bigger than we need, not too big to worry about overflow. *)
Definition big : Z := 0xFFFFFF%Z.

(** [dtoi]: decimal to integer; the value, the number of characters
    consumed and the success flag.  The loop
    [for i = 0; i < len(s) && '0' <= s[i] && s[i] <= '9'; i++] runs on the
    rest of [s], with [n] and [i] carried along. *)
Fixpoint dtoi_loop (s : string) (n : Z) (i : nat) : Z * nat * bool :=
  match s with
  | String c s' =>
      if between "0" "9" c then
        let n := (n * 10 + (code c - code "0"))%Z in
        if (big <=? n)%Z then (big, i, false) else dtoi_loop s' n (S i)
      else if (i =? 0)%nat then (0%Z, 0, false) else (n, i, true)
  | EmptyString => if (i =? 0)%nat then (0%Z, 0, false) else (n, i, true)
  end.

Definition dtoi (s : string) : Z * nat * bool := dtoi_loop s 0%Z 0.

(** [xtoi]: hexadecimal to integer. *)
Fixpoint xtoi_loop (s : string) (n : Z) (i : nat) : Z * nat * bool :=
  let stop := if (i =? 0)%nat then (0%Z, i, false) else (n, i, true) in
  match s with
  | String c s' =>
      let digit :=
        if between "0" "9" c then Some (n * 16 + (code c - code "0"))%Z
        else if between "a" "f" c then Some (n * 16 + (code c - code "a" + 10))%Z
        else if between "A" "F" c then Some (n * 16 + (code c - code "A" + 10))%Z
        else None in
      match digit with
      | Some n => if (big <=? n)%Z then (0%Z, i, false) else xtoi_loop s' n (S i)
      | None => stop
      end
  | EmptyString => stop
  end.

Definition xtoi (s : string) : Z * nat * bool := xtoi_loop s 0%Z 0.

(** The loop of [parseIPv4], [for i := 0; i < IPv4len; i++], with [k] the
    rounds left and [p] the octets read so far. *)
Fixpoint parseIPv4_loop (k i : nat) (s : string) (p : list Z)
  : option (list Z * string) :=
  match k with
  | O => Some (p, s)
  | S k' =>
      match s with
      | EmptyString => None                       (* missing octets *)
      | String c0 s1 =>
          let after_dot :=
            if (0 <? i)%nat
            then if Ascii.eqb c0 "." then Some s1 else None
            else Some s in
          match after_dot with
          | None => None
          | Some s =>
              let '(n, c, ok) := dtoi s in
              if negb ok || (0xFF <? n)%Z then None
              else parseIPv4_loop k' (S i) (drop c s) (p ++ [byte n])%list
          end
      end
  end.

Definition parseIPv4 (s : string) : option IP :=
  match parseIPv4_loop IPv4len 0 s [] with
  | Some ([p0; p1; p2; p3], EmptyString) => Some (IPv4 p0 p1 p2 p3)
  | _ => None
  end.

(** [ip[k] = v] on the address under construction.  The parser keeps
    every index below [IPv6len] by its own guards. *)
Fixpoint store (ip : IP) (k : nat) (v : Z) : IP :=
  match ip, k with
  | [], _ => []
  | _ :: ip', O => v :: ip'
  | b :: ip', S k' => b :: store ip' k' v
  end.

Definition load (ip : IP) (k : nat) : Z := nth k ip 0%Z.

(** The variables of [parseIPv6]: the address, the position of the
    ellipsis in it ([None] for [-1]), the index [i] into the address and
    the rest of the input. *)
Record v6state : Type := mk_v6state {
  v6_ip : IP;
  v6_ellipsis : option nat;
  v6_i : nat;
  v6_s : string
}.

Inductive v6step : Type :=
| ReturnNil
| Break (st : v6state)
| Continue (st : v6state).

(** One round of the loop "parsing hex numbers followed by colon". *)
Definition parseIPv6_round (st : v6state) : v6step :=
  let '(mk_v6state ip ellipsis i s) := st in
  let '(n, c, ok) := xtoi s in
  if negb ok || (0xFFFF <? n)%Z then ReturnNil
  else if (c <? String.length s)%nat
          && match String.get c s with Some d => Ascii.eqb d "." | None => false end
  then
    (* followed by dot: might be in trailing IPv4 *)
    if match ellipsis with None => true | Some _ => false end
       && negb (i =? IPv6len - IPv4len)%nat
    then ReturnNil                                   (* not the right place *)
    else if (IPv6len <? i + IPv4len)%nat then ReturnNil  (* not enough room *)
    else match parseIPv4 s with
         | None => ReturnNil
         | Some ip4 =>
             let ip := store ip i (load ip4 12) in
             let ip := store ip (i + 1) (load ip4 13) in
             let ip := store ip (i + 2) (load ip4 14) in
             let ip := store ip (i + 3) (load ip4 15) in
             Break (mk_v6state ip ellipsis (i + IPv4len) EmptyString)
         end
  else
    (* save this 16-bit chunk *)
    let ip := store ip i (byte (Z.shiftr n 8)) in
    let ip := store ip (i + 1) (byte n) in
    let i := i + 2 in
    match drop c s with
    | EmptyString => Break (mk_v6state ip ellipsis i EmptyString)
    | String c0 s1 =>
        (* otherwise must be followed by colon and more *)
        if negb (Ascii.eqb c0 ":") || (String.length (String c0 s1) =? 1)%nat
        then ReturnNil
        else
          match s1 with
          | String c1 s2 =>
              if Ascii.eqb c1 ":" then
                (* look for ellipsis *)
                match ellipsis with
                | Some _ => ReturnNil                (* already have one *)
                | None =>
                    if (String.length s2 =? 0)%nat   (* can be at end *)
                    then Break (mk_v6state ip (Some i) i s2)
                    else Continue (mk_v6state ip (Some i) i s2)
                end
              else Continue (mk_v6state ip ellipsis i s1)
          | EmptyString => ReturnNil     (* not reached: len(s) > 1 *)
          end
    end.

(** [for i < IPv6len { ... }].  A round that continues has raised [i] by
    2, so [IPv6len / 2] rounds are enough; [None] is [return nil]. *)
Fixpoint parseIPv6_loop (fuel : nat) (st : v6state) : option v6state :=
  if (IPv6len <=? v6_i st)%nat then Some st
  else match fuel with
       | O => None
       | S fuel' =>
           match parseIPv6_round st with
           | ReturnNil => None
           | Break st' => Some st'
           | Continue st' => parseIPv6_loop fuel' st'
           end
       end.

(** "If didn't parse enough, expand ellipsis":
    [for j := i - 1; j >= ellipsis; j-- { ip[j+n] = ip[j] }] and
    [for j := ellipsis + n - 1; j >= ellipsis; j-- { ip[j] = 0 }]. *)
Definition expand_ellipsis (ip : IP) (ellipsis i : nat) : IP :=
  let n := IPv6len - i in
  let ip := fold_left (fun ip j => store ip (j + n) (load ip j))
                      (rev (seq ellipsis (i - ellipsis))) ip in
  fold_left (fun ip j => store ip j 0%Z) (rev (seq ellipsis n)) ip.

Definition parseIPv6_tail (st : v6state) : option IP :=
  match parseIPv6_loop (IPv6len / 2) st with
  | None => None
  | Some (mk_v6state ip ellipsis i s) =>
      (* must have used entire string *)
      if negb (String.length s =? 0)%nat then None
      else if (i <? IPv6len)%nat then
        match ellipsis with
        | None => None
        | Some e => Some (expand_ellipsis ip e i)
        end
      else
        match ellipsis with
        | Some _ => None       (* ellipsis must represent at least one 0 group *)
        | None => Some ip
        end
  end.

Definition parseIPv6 (s : string) : option IP :=
  let ip := repeat 0%Z IPv6len in
  match s with
  | String ":" (String ":" s2) =>
      (* leading ellipsis; might be only ellipsis *)
      if (String.length s2 =? 0)%nat then Some ip
      else parseIPv6_tail (mk_v6state ip (Some 0) 0 s2)
  | _ => parseIPv6_tail (mk_v6state ip None 0 s)
  end.

(** [net.ParseIP]: [for i := 0; i < len(s); i++ { switch s[i] { ... } }]. *)
Fixpoint ParseIP_scan (rest s : string) : option IP :=
  match rest with
  | EmptyString => None
  | String c rest' =>
      if Ascii.eqb c "." then parseIPv4 s
      else if Ascii.eqb c ":" then parseIPv6 s
      else ParseIP_scan rest' s
  end.

Definition ParseIP (s : string) : option IP := ParseIP_scan s s.

Definition isZeros (p : IP) : bool := forallb (Z.eqb 0) p.

Definition bytesEqual (x y : IP) : bool :=
  if list_eq_dec Z.eq_dec x y then true else false.

(** [ip.To4()]; [None] is [nil]. *)
Definition To4 (ip : IP) : option IP :=
  if (List.length ip =? IPv4len)%nat then Some ip
  else if (List.length ip =? IPv6len)%nat
          && isZeros (firstn 10 ip)
          && (load ip 10 =? 0xff)%Z && (load ip 11 =? 0xff)%Z
  then Some (firstn 4 (skipn 12 ip))
  else None.

(** [ip.Equal(x)]. *)
Definition Equal (ip x : IP) : bool :=
  if (List.length ip =? List.length x)%nat then bytesEqual ip x
  else if (List.length ip =? IPv4len)%nat && (List.length x =? IPv6len)%nat
  then bytesEqual (firstn 12 x) v4InV6Prefix && bytesEqual ip (skipn 12 x)
  else if (List.length ip =? IPv6len)%nat && (List.length x =? IPv4len)%nat
  then bytesEqual (firstn 12 ip) v4InV6Prefix && bytesEqual (skipn 12 ip) x
  else false.

(** [ip.IsLoopback()]. *)
Definition IsLoopback (ip : IP) : bool :=
  match To4 ip with
  | Some ip4 => (load ip4 0 =? 127)%Z
  | None => Equal ip IPv6loopback
  end.

End net.

(** ** Package report, file id.go *)

Module report.

(** [TheInternet] is used as a node ID to indicate a remote IP. *)
Definition TheInternet : string := "theinternet".

(** [ScopeDelim] separates the contextual scopes within a node ID;
    [EdgeDelim] separates the two node IDs of an edge key. *)
Definition ScopeDelim : string := ";".
Definition EdgeDelim : string := "|".

(** [MakeAdjacencyID] produces an adjacency ID from a node id. *)
Definition MakeAdjacencyID (srcNodeID : string) : string :=
  ">" ++ srcNodeID.

(** [ParseAdjacencyID] produces a node ID from an adjacency ID. *)
Definition ParseAdjacencyID (adjacencyID : string) : exec (string * bool) :=
  if negb (strings.HasPrefix adjacencyID ">") then Returns ("", false)
  else
    nodeID <- slice_from adjacencyID 1 ;;
    Returns (nodeID, true).

(** [MakeEdgeID] produces an edge ID from composite parts. *)
Definition MakeEdgeID (srcNodeID dstNodeID : string) : string :=
  srcNodeID ++ EdgeDelim ++ dstNodeID.

(** [ParseEdgeID] splits an edge ID to its composite parts. *)
Definition ParseEdgeID (edgeID : string) : exec (string * string * bool) :=
  let fields := strings.SplitN edgeID EdgeDelim 2 in
  if negb (List.length fields =? 2)%nat then Returns ("", "", false)
  else
    srcNodeID <- at_index fields 0 ;;
    dstNodeID <- at_index fields 1 ;;
    Returns (srcNodeID, dstNodeID, true).

Definition isLoopback (address : string) : bool :=
  match net.ParseIP address with
  | Some ip => net.IsLoopback ip
  | None => false
  end.

(** [MakeAddressNodeID] produces an address node ID from its composite
    parts.  Only loopback addresses get scoped by [hostID]. *)
Definition MakeAddressNodeID (hostID address : string) : string :=
  let hostID := if negb (isLoopback address) then "" else hostID in
  hostID ++ ScopeDelim ++ address.

(** [MakeEndpointNodeID] produces an endpoint node ID from its composite
    parts. *)
Definition MakeEndpointNodeID (hostID address port : string) : string :=
  MakeAddressNodeID hostID address ++ ScopeDelim ++ port.

(** [MakeProcessNodeID] produces a process node ID from its composite
    parts. *)
Definition MakeProcessNodeID (hostID pid : string) : string :=
  hostID ++ ScopeDelim ++ pid.

(** [MakeHostNodeID] produces a host node ID from its composite parts. *)
Definition MakeHostNodeID (hostID : string) : string :=
  hostID ++ ScopeDelim ++ "<host>".

(** [MakeContainerNodeID] produces a container node ID from its composite
    parts. *)
Definition MakeContainerNodeID (hostID containerID : string) : string :=
  hostID ++ ScopeDelim ++ containerID.

(** [ParseNodeID] produces the host ID and remainder (typically an
    address) from a node ID.  Note that [hostID] may be blank. *)
Definition ParseNodeID (nodeID : string) : exec (string * string * bool) :=
  let fields := strings.SplitN nodeID ScopeDelim 2 in
  if negb (List.length fields =? 2)%nat then Returns ("", "", false)
  else
    hostID <- at_index fields 0 ;;
    remainder <- at_index fields 1 ;;
    Returns (hostID, remainder, true).

(** [MakePseudoNodeID] produces a pseudo node ID from its composite parts
    (a variadic function: [parts] is the slice of its arguments). *)
Definition MakePseudoNodeID (parts : list string) : string :=
  strings.Join (["pseudo"] ++ parts)%list ScopeDelim.

(** [IDAddresser] tries to convert a node ID to a [net.IP], if possible. *)
Definition IDAddresser : Type := string -> exec (option net.IP).

(** [EndpointIDAddresser] converts an endpoint node ID to an IP. *)
Definition EndpointIDAddresser : IDAddresser := fun id =>
  let fields := strings.SplitN id ScopeDelim 3 in
  if negb (List.length fields =? 3)%nat then Returns None
  else
    address <- at_index fields 1 ;;
    Returns (net.ParseIP address).

(** [AddressIDAddresser] converts an address node ID to an IP. *)
Definition AddressIDAddresser : IDAddresser := fun id =>
  let fields := strings.SplitN id ScopeDelim 2 in
  if negb (List.length fields =? 2)%nat then Returns None
  else
    address <- at_index fields 1 ;;
    Returns (net.ParseIP address).

(** [PanicIDAddresser] will panic if it's ever called. *)
Definition PanicIDAddresser : IDAddresser := fun id =>
  Panics (Sprintf "PanicIDAddresser called on %q" [id]).

End report.

(** ** Character classes of an IP literal *)

Fixpoint all_chars (p : ascii -> bool) (s : string) : bool :=
  match s with
  | EmptyString => true
  | String c s' => p c && all_chars p s'
  end.

(** The characters [net.ParseIP] can consume: hexadecimal digits, the dot
    and the colon. *)
Definition ip_char (c : ascii) : bool :=
  net.between "0" "9" c || net.between "a" "f" c || net.between "A" "F" c
  || Ascii.eqb c "." || Ascii.eqb c ":".

(** A round of [parseIPv6] that does not give up leaves a rest of the
    input such that the characters before it belong to IP literals. *)
Definition round_keeps_chars (st : net.v6state) (r : net.v6step) : Prop :=
  match r with
  | net.ReturnNil => True
  | net.Break st' | net.Continue st' =>
      all_chars ip_char (net.v6_s st') = true ->
      all_chars ip_char (net.v6_s st) = true
  end.

(** * Properties *)

(** ** The panic monad *)

Lemma at_index_in_range (fields : list string) (i : nat) :
  i < List.length fields -> exists f, at_index fields i = Returns f.
Proof.
  intros Hi. unfold at_index.
  destruct (nth_error fields i) as [f|] eqn:E.
  - now exists f.
  - apply nth_error_None in E. lia.
Qed.

(** ** Strings: append, slices *)

Lemma length_append (a b : string) :
  String.length (a ++ b) = String.length a + String.length b.
Proof. induction a as [|x a IH]; simpl; [reflexivity | now rewrite IH]. Qed.

Lemma append_assoc (a b c : string) : (a ++ b) ++ c = a ++ (b ++ c).
Proof. induction a as [|x a IH]; simpl; [reflexivity | now rewrite IH]. Qed.

Lemma substring_prefix_append (a b : string) :
  substring 0 (String.length a) (a ++ b) = a.
Proof.
  induction a as [|x a IH]; simpl.
  - now destruct b.
  - now rewrite IH.
Qed.

Lemma drop_append_sep (a b : string) (c : ascii) :
  drop (String.length a + 1) (a ++ String c b) = b.
Proof.
  induction a as [|x a IH]; simpl; [reflexivity | exact IH].
Qed.

(** ** Strings: a one-byte separator *)

Section OneByteSeparator.

Variable c : ascii.
Local Abbreviation sep := (String c EmptyString).

Lemma Index_cons (x : ascii) (s : string) :
  strings.Index (String x s) sep =
  if Ascii.eqb x c then Some 0 else option_map S (strings.Index s sep).
Proof.
  simpl. destruct (ascii_dec c x) as [->|Hne].
  - rewrite Ascii.eqb_refl. now destruct s.
  - destruct (Ascii.eqb x c) eqn:E; [|reflexivity].
    apply Ascii.eqb_eq in E. congruence.
Qed.

Lemma Contains_Index (s : string) :
  strings.Contains s sep = false <-> strings.Index s sep = None.
Proof.
  unfold strings.Contains. destruct (strings.Index s sep); split; congruence.
Qed.

Lemma Contains_cons (x : ascii) (s : string) :
  strings.Contains (String x s) sep =
  Ascii.eqb x c || strings.Contains s sep.
Proof.
  unfold strings.Contains. rewrite Index_cons.
  destruct (Ascii.eqb x c); [reflexivity|].
  now destruct (strings.Index s sep).
Qed.

Lemma Contains_append (a b : string) :
  strings.Contains (a ++ b) sep =
  strings.Contains a sep || strings.Contains b sep.
Proof.
  induction a as [|x a IH]; simpl append.
  - reflexivity.
  - rewrite !Contains_cons, IH. now rewrite orb_assoc.
Qed.

Lemma Contains_sep (b : string) : strings.Contains (String c b) sep = true.
Proof. now rewrite Contains_cons, Ascii.eqb_refl. Qed.

(** The first separator of [a ++ sep ++ b] is the one written, when [a]
    has none. *)
Lemma Index_first (a b : string) :
  strings.Contains a sep = false ->
  strings.Index (a ++ String c b) sep = Some (String.length a).
Proof.
  induction a as [|x a IH]; intros Ha.
  - simpl append. now rewrite Index_cons, Ascii.eqb_refl.
  - rewrite Contains_cons in Ha. apply orb_false_iff in Ha as [Hx Ha].
    simpl append. rewrite Index_cons, Hx, (IH Ha). reflexivity.
Qed.

(** A string with a separator is [a ++ sep ++ b], cut at the position
    [strings.Index] reports. *)
Lemma Index_cut (s : string) (m : nat) :
  strings.Index s sep = Some m ->
  exists a b, s = a ++ String c b /\ strings.Contains a sep = false
              /\ String.length a = m.
Proof.
  revert m; induction s as [|x s IH]; intros m.
  - discriminate.
  - rewrite Index_cons. destruct (Ascii.eqb x c) eqn:E.
    + intros [= <-]. apply Ascii.eqb_eq in E as ->.
      now exists "", s.
    + destruct (strings.Index s sep) as [m'|]; [|discriminate].
      intros [= <-]. destruct (IH m' eq_refl) as (a & b & -> & Ha & Hl).
      exists (String x a), b. repeat split.
      * now rewrite Contains_cons, E, Ha.
      * simpl. now rewrite Hl.
Qed.

Lemma fields_cases (s : string) :
  strings.Contains s sep = false \/
  exists a b, s = a ++ String c b /\ strings.Contains a sep = false.
Proof.
  destruct (strings.Index s sep) as [m|] eqn:E.
  - right. destruct (Index_cut s m E) as (a & b & ? & ? & ?). now exists a, b.
  - left. now apply Contains_Index.
Qed.

(** Induction over the fields of a string: a string without separator,
    or a first field followed by a string already treated. *)
Lemma fields_ind (P : string -> Prop) :
  (forall s, strings.Contains s sep = false -> P s) ->
  (forall a b, strings.Contains a sep = false -> P b -> P (a ++ String c b)) ->
  forall s, P s.
Proof.
  intros Hleaf Hnode s.
  remember (String.length s) as n eqn:Hn.
  revert s Hn. induction n as [n IH] using lt_wf_ind. intros s ->.
  destruct (fields_cases s) as [Hs | (a & b & -> & Ha)].
  - now apply Hleaf.
  - apply Hnode; [exact Ha|].
    apply (IH (String.length b)); [|reflexivity].
    rewrite length_append. simpl. lia.
Qed.

(** *** The loop of genSplit *)

Lemma split_loop_miss (k : nat) (s : string) :
  strings.Contains s sep = false -> strings.split_loop k s sep = [s].
Proof.
  intros Hs. apply Contains_Index in Hs.
  destruct k; simpl; [reflexivity | now rewrite Hs].
Qed.

Lemma split_loop_hit (k : nat) (a b : string) :
  strings.Contains a sep = false ->
  strings.split_loop (S k) (a ++ String c b) sep =
  a :: strings.split_loop k b sep.
Proof.
  intros Ha. simpl. rewrite (Index_first a b Ha).
  now rewrite substring_prefix_append, drop_append_sep.
Qed.

(** *** strings.Count *)

Lemma count_loop_miss (fuel : nat) (s : string) :
  strings.Contains s sep = false -> strings.count_loop fuel s sep = 0.
Proof.
  intros Hs. apply Contains_Index in Hs.
  destruct fuel; simpl; [reflexivity | now rewrite Hs].
Qed.

Lemma count_loop_hit (fuel : nat) (a b : string) :
  strings.Contains a sep = false ->
  strings.count_loop (S fuel) (a ++ String c b) sep =
  S (strings.count_loop fuel b sep).
Proof.
  intros Ha. simpl. rewrite (Index_first a b Ha).
  now rewrite drop_append_sep.
Qed.

(** The count does not depend on the fuel, once there is more of it than
    the string is long. *)
Lemma count_loop_fuel (s : string) :
  forall f f', String.length s < f -> String.length s < f' ->
               strings.count_loop f s sep = strings.count_loop f' s sep.
Proof.
  induction s as [s Hs | a b Ha IH] using fields_ind; intros f f' Hf Hf'.
  - now rewrite !count_loop_miss.
  - rewrite length_append in Hf, Hf'. simpl in Hf, Hf'.
    destruct f as [|f]; [lia|]. destruct f' as [|f']; [lia|].
    rewrite !count_loop_hit by assumption.
    f_equal. apply IH; lia.
Qed.

Lemma Count_miss (s : string) :
  strings.Contains s sep = false -> strings.Count s sep = 0.
Proof. intros Hs. unfold strings.Count. now apply count_loop_miss. Qed.

Lemma Count_hit (a b : string) :
  strings.Contains a sep = false ->
  strings.Count (a ++ String c b) sep = S (strings.Count b sep).
Proof.
  intros Ha. unfold strings.Count. rewrite count_loop_hit by assumption.
  f_equal. apply count_loop_fuel; [|lia].
  rewrite length_append. simpl. lia.
Qed.

Lemma Count_le_length (s : string) : strings.Count s sep <= String.length s.
Proof.
  induction s as [s Hs | a b Ha IH] using fields_ind.
  - rewrite Count_miss by assumption. lia.
  - rewrite Count_hit by assumption. rewrite length_append. simpl. lia.
Qed.

Lemma Count_zero (s : string) :
  strings.Count s sep = 0 <-> strings.Contains s sep = false.
Proof.
  split; [|apply Count_miss].
  destruct (fields_cases s) as [Hs | (a & b & -> & Ha)]; [easy|].
  now rewrite Count_hit.
Qed.

(** *** The fields of the bounded and of the full split *)

(** Cuts beyond the number of separators change nothing. *)
Lemma split_loop_enough (s : string) :
  forall k k', strings.Count s sep <= k -> strings.Count s sep <= k' ->
               strings.split_loop k s sep = strings.split_loop k' s sep.
Proof.
  induction s as [s Hs | a b Ha IH] using fields_ind; intros k k' Hk Hk'.
  - now rewrite !split_loop_miss.
  - rewrite Count_hit in Hk, Hk' by assumption.
    destruct k as [|k]; [lia|]. destruct k' as [|k']; [lia|].
    rewrite !split_loop_hit by assumption.
    f_equal. apply IH; lia.
Qed.

Lemma split_loop_length (s : string) :
  forall k, List.length (strings.split_loop k s sep)
            = Nat.min k (strings.Count s sep) + 1.
Proof.
  induction s as [s Hs | a b Ha IH] using fields_ind; intros k.
  - rewrite split_loop_miss, Count_miss by assumption. simpl. lia.
  - rewrite Count_hit by assumption. destruct k as [|k]; [reflexivity|].
    rewrite split_loop_hit by assumption. simpl. rewrite IH. lia.
Qed.

(** The fields before the last one allowed are those of any longer
    split. *)
Lemma split_loop_nth_error (s : string) :
  forall k k' j, j < k -> j < k' ->
    nth_error (strings.split_loop k s sep) j
    = nth_error (strings.split_loop k' s sep) j.
Proof.
  induction s as [s Hs | a b Ha IH] using fields_ind; intros k k' j Hk Hk'.
  - now rewrite !split_loop_miss.
  - destruct k as [|k]; [lia|]. destruct k' as [|k']; [lia|].
    rewrite !split_loop_hit by assumption.
    destruct j as [|j]; [reflexivity|]. simpl. apply IH; lia.
Qed.

(** [strings.SplitN] with a positive bound [k + 1] makes at most [k]
    cuts. *)
Lemma SplitN_split_loop (s : string) (k : nat) :
  strings.SplitN s sep (Z.of_nat (S k)) = strings.split_loop k s sep.
Proof.
  unfold strings.SplitN, strings.genSplit.
  replace (Z.of_nat (S k) =? 0)%Z with false by (symmetry; apply Z.eqb_neq; lia).
  replace (Z.of_nat (S k) <? 0)%Z with false by (symmetry; apply Z.ltb_ge; lia).
  rewrite Nat2Z.id. cbn [String.eqb].
  pose proof (Count_le_length s) as Hc.
  destruct (String.length s + 1 <? S k)%nat eqn:E.
  - apply Nat.ltb_lt in E. apply split_loop_enough; lia.
  - f_equal. lia.
Qed.

Lemma Split_split_loop (s : string) :
  strings.Split s sep = strings.split_loop (strings.Count s sep) s sep.
Proof.
  unfold strings.Split, strings.genSplit. cbn [Z.eqb Z.ltb Z.compare String.eqb].
  pose proof (Count_le_length s) as Hc.
  destruct (String.length s + 1 <? strings.Count s sep + 1)%nat eqn:E.
  - apply Nat.ltb_lt in E. lia.
  - f_equal. lia.
Qed.

Lemma Split_length (s : string) :
  List.length (strings.Split s sep) = strings.Count s sep + 1.
Proof. rewrite Split_split_loop, split_loop_length. lia. Qed.

Lemma Split_miss (s : string) :
  strings.Contains s sep = false -> strings.Split s sep = [s].
Proof. intros Hs. rewrite Split_split_loop. now apply split_loop_miss. Qed.

Lemma Split_hit (a b : string) :
  strings.Contains a sep = false ->
  strings.Split (a ++ String c b) sep = a :: strings.Split b sep.
Proof.
  intros Ha. rewrite !Split_split_loop, Count_hit by assumption.
  now apply split_loop_hit.
Qed.

End OneByteSeparator.

(** *** strings.Join *)

Lemma Join_loop_append (sep x : string) (rest : list string) (y : string) :
  fold_left (fun b s => b ++ sep ++ s) rest (x ++ y)
  = x ++ fold_left (fun b s => b ++ sep ++ s) rest y.
Proof.
  revert y; induction rest as [|r rest IH]; intros y; simpl; [reflexivity|].
  now rewrite append_assoc, IH.
Qed.

Lemma Join_cons (sep a0 a1 : string) (rest : list string) :
  strings.Join (a0 :: a1 :: rest) sep
  = a0 ++ sep ++ strings.Join (a1 :: rest) sep.
Proof.
  unfold strings.Join. simpl fold_left.
  now rewrite Join_loop_append, Join_loop_append.
Qed.

(** ** The two-part parsers *)

Section TwoParts.

Variable c : ascii.
Local Abbreviation sep := (String c EmptyString).

Lemma SplitN_2_hit (a b : string) :
  strings.Contains a sep = false ->
  strings.SplitN (a ++ sep ++ b) sep 2 = [a; b].
Proof.
  intros Ha. change 2%Z with (Z.of_nat 2). rewrite SplitN_split_loop.
  simpl append. now rewrite split_loop_hit.
Qed.

Lemma SplitN_2_miss (s : string) :
  strings.Contains s sep = false -> strings.SplitN s sep 2 = [s].
Proof.
  intros Hs. change 2%Z with (Z.of_nat 2). rewrite SplitN_split_loop.
  now apply split_loop_miss.
Qed.

End TwoParts.

Lemma ParseNodeID_hit (hostID remainder : string) :
  strings.Contains hostID report.ScopeDelim = false ->
  report.ParseNodeID (hostID ++ report.ScopeDelim ++ remainder)
  = Returns (hostID, remainder, true).
Proof.
  intros Hh. unfold report.ParseNodeID, report.ScopeDelim in *.
  now rewrite SplitN_2_hit.
Qed.

Lemma ParseNodeID_miss (nodeID : string) :
  strings.Contains nodeID report.ScopeDelim = false ->
  report.ParseNodeID nodeID = Returns ("", "", false).
Proof.
  intros Hs. unfold report.ParseNodeID, report.ScopeDelim in *.
  now rewrite SplitN_2_miss.
Qed.

Lemma ParseEdgeID_hit (src dst : string) :
  strings.Contains src report.EdgeDelim = false ->
  report.ParseEdgeID (src ++ report.EdgeDelim ++ dst)
  = Returns (src, dst, true).
Proof.
  intros Hs. unfold report.ParseEdgeID, report.EdgeDelim in *.
  now rewrite SplitN_2_hit.
Qed.

Lemma ParseEdgeID_miss (edgeID : string) :
  strings.Contains edgeID report.EdgeDelim = false ->
  report.ParseEdgeID edgeID = Returns ("", "", false).
Proof.
  intros Hs. unfold report.ParseEdgeID, report.EdgeDelim in *.
  now rewrite SplitN_2_miss.
Qed.

(** Whatever the string, the bounded split has one field or two, and the
    parser indexes the fields only when there are two. *)
Lemma two_part_parser_returns (c : ascii) (s : string) :
  let fields := strings.SplitN s (String c "") 2 in
  exists r : string * string * bool,
    (if negb (List.length fields =? 2)%nat then Returns ("", "", false)
     else f0 <- at_index fields 0 ;; f1 <- at_index fields 1 ;;
          Returns (f0, f1, true)) = Returns r.
Proof.
  intros fields.
  destruct (List.length fields =? 2)%nat eqn:E; simpl negb; cbv iota.
  - apply Nat.eqb_eq in E.
    destruct (at_index_in_range fields 0) as [f0 ->]; [lia|].
    destruct (at_index_in_range fields 1) as [f1 ->]; [lia|].
    now exists (f0, f1, true).
  - now exists ("", "", false).
Qed.

Lemma ParseAdjacencyID_miss (adjacencyID : string) :
  strings.HasPrefix adjacencyID ">" = false ->
  report.ParseAdjacencyID adjacencyID = Returns ("", false).
Proof. intros H. unfold report.ParseAdjacencyID. now rewrite H. Qed.

Lemma HasPrefix_length (s pre : string) :
  strings.HasPrefix s pre = true -> String.length pre <= String.length s.
Proof.
  unfold strings.HasPrefix. revert s.
  induction pre as [|x pre IH]; intros s H; simpl in *; [lia|].
  destruct s as [|y s]; [discriminate|]. simpl in H.
  destruct (ascii_dec x y); [|discriminate].
  specialize (IH s H). simpl. lia.
Qed.

(** ** Node IDs of processes and containers *)

(** C1: for a hostID, a pid and a containerID that contain neither the
    scope delimiter nor the edge delimiter, [ParseNodeID] gives back the
    parts [MakeProcessNodeID] was called with, and likewise those of
    [MakeContainerNodeID], with a true flag. *)
Theorem node_id_round_trip (hostID pid containerID : string) :
  strings.Contains hostID report.ScopeDelim = false ->
  strings.Contains hostID report.EdgeDelim = false ->
  strings.Contains pid report.ScopeDelim = false ->
  strings.Contains pid report.EdgeDelim = false ->
  strings.Contains containerID report.ScopeDelim = false ->
  strings.Contains containerID report.EdgeDelim = false ->
  report.ParseNodeID (report.MakeProcessNodeID hostID pid)
    = Returns (hostID, pid, true)
  /\ report.ParseNodeID (report.MakeContainerNodeID hostID containerID)
    = Returns (hostID, containerID, true).
Proof.
  intros Hh _ _ _ _ _.
  unfold report.MakeProcessNodeID, report.MakeContainerNodeID.
  split; now apply ParseNodeID_hit.
Qed.

Lemma node_id_round_trip_witness :
  strings.Contains "host-a" report.ScopeDelim = false
  /\ strings.Contains "4711" report.EdgeDelim = false
  /\ report.ParseNodeID (report.MakeProcessNodeID "host-a" "4711")
     = Returns ("host-a", "4711", true)
  /\ report.ParseNodeID (report.MakeContainerNodeID "host-a" "f00dcafe")
     = Returns ("host-a", "f00dcafe", true).
Proof.
  split; [reflexivity|]. split; [reflexivity|].
  apply (node_id_round_trip "host-a" "4711" "f00dcafe"); reflexivity.
Defined.

(** C9: a process node ID and a container node ID built from the same
    parts are the same string; the kind of the node is not in the ID. *)
Theorem process_container_ids_collide (hostID x : string) :
  report.MakeProcessNodeID hostID x = report.MakeContainerNodeID hostID x.
Proof. reflexivity. Qed.

(** ** Host node IDs *)

(** C7: [MakeHostNodeID h] is [h], the scope delimiter [";"] and the
    marker ["<host>"]; so ["probe-42"] gives ["probe-42;<host>"], which
    [ParseNodeID] splits into ["probe-42"] and ["<host>"]. *)
Theorem host_node_id (h : string) :
  report.MakeHostNodeID h = h ++ ";" ++ "<host>"
  /\ report.ScopeDelim = ";"
  /\ report.MakeHostNodeID "probe-42" = "probe-42;<host>"
  /\ report.ParseNodeID "probe-42;<host>"
     = Returns ("probe-42", "<host>", true).
Proof. repeat split. Qed.

(** ** Adjacency IDs *)

(** C5: [ParseAdjacencyID] undoes [MakeAdjacencyID] on every string, and
    answers [("", false)] on every string that does not start with
    [">"]. *)
Theorem adjacency_id_round_trip (x y : string) :
  report.ParseAdjacencyID (report.MakeAdjacencyID x) = Returns (x, true)
  /\ (strings.HasPrefix y ">" = false ->
      report.ParseAdjacencyID y = Returns ("", false)).
Proof.
  split.
  - unfold report.ParseAdjacencyID, report.MakeAdjacencyID, strings.HasPrefix.
    simpl. destruct x; reflexivity.
  - apply ParseAdjacencyID_miss.
Qed.

Lemma adjacency_id_round_trip_witness :
  strings.HasPrefix "host-a;10.0.0.1" ">" = false
  /\ report.ParseAdjacencyID (report.MakeAdjacencyID ";8.8.8.8")
     = Returns (";8.8.8.8", true)
  /\ report.ParseAdjacencyID "host-a;10.0.0.1" = Returns ("", false).
Proof.
  split; [reflexivity|].
  destruct (adjacency_id_round_trip ";8.8.8.8" "host-a;10.0.0.1") as [H1 H2].
  split; [exact H1 | apply H2; reflexivity].
Defined.

(** ** Edge IDs *)

(** C4: for node IDs [a] and [b] without the edge delimiter,
    [ParseEdgeID] gives back the two node IDs of [MakeEdgeID a b] in
    their order, and the edge from [a] to [b] has another ID than the
    edge from [b] to [a] unless [a] is [b]. *)
Theorem edge_id_round_trip (a b : string) :
  strings.Contains a report.EdgeDelim = false ->
  strings.Contains b report.EdgeDelim = false ->
  report.ParseEdgeID (report.MakeEdgeID a b) = Returns (a, b, true)
  /\ (a <> b -> report.MakeEdgeID a b <> report.MakeEdgeID b a).
Proof.
  intros Ha Hb. unfold report.MakeEdgeID. split.
  - now apply ParseEdgeID_hit.
  - intros Hne Heq.
    pose proof (ParseEdgeID_hit a b Ha) as Pab.
    pose proof (ParseEdgeID_hit b a Hb) as Pba.
    rewrite Heq, Pba in Pab. congruence.
Qed.

Lemma edge_id_round_trip_witness :
  strings.Contains "h1;10.0.0.1" report.EdgeDelim = false
  /\ strings.Contains "h2;10.0.0.2" report.EdgeDelim = false
  /\ "h1;10.0.0.1" <> "h2;10.0.0.2"
  /\ report.ParseEdgeID (report.MakeEdgeID "h1;10.0.0.1" "h2;10.0.0.2")
     = Returns ("h1;10.0.0.1", "h2;10.0.0.2", true)
  /\ report.MakeEdgeID "h1;10.0.0.1" "h2;10.0.0.2"
     <> report.MakeEdgeID "h2;10.0.0.2" "h1;10.0.0.1".
Proof.
  assert (Hne : "h1;10.0.0.1" <> "h2;10.0.0.2") by discriminate.
  split; [reflexivity|]. split; [reflexivity|]. split; [exact Hne|].
  destruct (edge_id_round_trip "h1;10.0.0.1" "h2;10.0.0.2"
              eq_refl eq_refl) as [H1 H2].
  split; [exact H1 | exact (H2 Hne)].
Defined.

(** ** Parsers on malformed input *)

(** C6: a string without the scope delimiter makes [ParseNodeID] answer
    [("", "", false)], one without the edge delimiter makes [ParseEdgeID]
    answer [("", "", false)], one without the prefix [">"] makes
    [ParseAdjacencyID] answer [("", false)]; the empty string is such a
    string for all three; and on every string each of the three parsers
    returns, it does not panic. *)
Theorem parsers_fail_cleanly (s : string) :
  (strings.Contains s report.ScopeDelim = false ->
   report.ParseNodeID s = Returns ("", "", false))
  /\ (strings.Contains s report.EdgeDelim = false ->
      report.ParseEdgeID s = Returns ("", "", false))
  /\ (strings.HasPrefix s ">" = false ->
      report.ParseAdjacencyID s = Returns ("", false))
  /\ report.ParseNodeID "" = Returns ("", "", false)
  /\ report.ParseEdgeID "" = Returns ("", "", false)
  /\ report.ParseAdjacencyID "" = Returns ("", false)
  /\ (exists r, report.ParseNodeID s = Returns r)
  /\ (exists r, report.ParseEdgeID s = Returns r)
  /\ (exists r, report.ParseAdjacencyID s = Returns r).
Proof.
  split; [apply ParseNodeID_miss|].
  split; [apply ParseEdgeID_miss|].
  split; [apply ParseAdjacencyID_miss|].
  do 3 (split; [reflexivity|]).
  split; [apply two_part_parser_returns|].
  split; [apply two_part_parser_returns|].
  unfold report.ParseAdjacencyID.
  destruct (strings.HasPrefix s ">") eqn:E; simpl negb; cbv iota.
  - apply HasPrefix_length in E. simpl in E. unfold slice_from.
    destruct (Nat.leb_spec 1 (String.length s)) as [_|Hlt]; [|lia].
    now exists (drop 1 s, true).
  - now exists ("", false).
Qed.

Lemma parsers_fail_cleanly_witness :
  strings.Contains "theinternet" report.ScopeDelim = false
  /\ strings.Contains "theinternet" report.EdgeDelim = false
  /\ strings.HasPrefix "theinternet" ">" = false
  /\ report.ParseNodeID "theinternet" = Returns ("", "", false)
  /\ report.ParseEdgeID "theinternet" = Returns ("", "", false)
  /\ report.ParseAdjacencyID "theinternet" = Returns ("", false).
Proof.
  do 3 (split; [reflexivity|]).
  destruct (parsers_fail_cleanly "theinternet") as (H1 & H2 & H3 & _).
  split; [apply H1; reflexivity|].
  split; [apply H2; reflexivity | apply H3; reflexivity].
Defined.

(** ** The addresser that must not be called *)

(** C8: [PanicIDAddresser] panics on every string, with the message made
    from that string, and so returns on none. *)
Theorem panic_id_addresser_panics (id : string) :
  report.PanicIDAddresser id
    = Panics (Sprintf "PanicIDAddresser called on %q" [id])
  /\ (forall ip, report.PanicIDAddresser id <> Returns ip).
Proof. split; [reflexivity | discriminate]. Qed.

Lemma panic_id_addresser_panics_witness :
  report.PanicIDAddresser ";10.0.0.1;80" <> Returns None.
Proof. apply (panic_id_addresser_panics ";10.0.0.1;80"). Defined.

(** ** Pseudo node IDs *)

Lemma MakePseudoNodeID_cons (part : string) (parts : list string) :
  report.MakePseudoNodeID (part :: parts)
  = "pseudo" ++ report.ScopeDelim
    ++ strings.Join (part :: parts) report.ScopeDelim.
Proof.
  unfold report.MakePseudoNodeID. simpl app. apply Join_cons.
Qed.

(** C10: without parts [MakePseudoNodeID] gives ["pseudo"], which has no
    scope delimiter and on which [ParseNodeID] fails; with a part or more
    the ID has a scope delimiter and [ParseNodeID] splits it into the
    host ID ["pseudo"] and the parts joined by the delimiter. *)
Theorem pseudo_node_id (part : string) (parts : list string) :
  report.MakePseudoNodeID [] = "pseudo"
  /\ strings.Contains (report.MakePseudoNodeID []) report.ScopeDelim = false
  /\ report.ParseNodeID (report.MakePseudoNodeID []) = Returns ("", "", false)
  /\ strings.Contains (report.MakePseudoNodeID (part :: parts))
                      report.ScopeDelim = true
  /\ report.ParseNodeID (report.MakePseudoNodeID (part :: parts))
     = Returns ("pseudo", strings.Join (part :: parts) report.ScopeDelim, true).
Proof.
  do 3 (split; [reflexivity|]).
  rewrite MakePseudoNodeID_cons. split.
  - unfold report.ScopeDelim. simpl append at 2.
    rewrite Contains_append, Contains_sep. apply orb_true_r.
  - now apply ParseNodeID_hit.
Qed.

(** ** What net.ParseIP accepts *)

(** The characters [dtoi] consumes are decimal digits: if the rest of the
    string is made of characters of IP literals, so is the string. *)
Lemma dtoi_loop_chars (s : string) :
  forall n i n' c,
    net.dtoi_loop s n i = (n', c, true) ->
    i <= c /\ (all_chars ip_char (drop (c - i) s) = true ->
               all_chars ip_char s = true).
Proof.
  induction s as [|x s IH]; intros n i n' c; simpl net.dtoi_loop.
  - destruct (i =? 0)%nat; [discriminate|]. intros [= _ <-].
    split; [lia|]. now rewrite Nat.sub_diag.
  - destruct (net.between "0" "9" x) eqn:Ex.
    + destruct (net.big <=? _)%Z; [discriminate|].
      intros H. apply IH in H as [Hle Hrest]. split; [lia|].
      replace (c - i) with (S (c - S i)) by lia. simpl. intros Hd.
      rewrite (Hrest Hd). unfold ip_char. now rewrite Ex.
    + destruct (i =? 0)%nat; [discriminate|]. intros [= _ <-].
      split; [lia|]. now rewrite Nat.sub_diag.
Qed.

Lemma dtoi_chars (s : string) (n : Z) (c : nat) :
  net.dtoi s = (n, c, true) ->
  all_chars ip_char (drop c s) = true -> all_chars ip_char s = true.
Proof.
  intros H. apply dtoi_loop_chars in H as [_ H].
  now rewrite Nat.sub_0_r in H.
Qed.

Lemma xtoi_loop_chars (s : string) :
  forall n i n' c,
    net.xtoi_loop s n i = (n', c, true) ->
    i <= c /\ (all_chars ip_char (drop (c - i) s) = true ->
               all_chars ip_char s = true).
Proof.
  induction s as [|x s IH]; intros n i n' c; simpl net.xtoi_loop.
  - destruct (i =? 0)%nat; [discriminate|]. intros [= _ <-].
    split; [lia|]. now rewrite Nat.sub_diag.
  - assert (Hstop : (if (i =? 0)%nat then (0%Z, i, false) else (n, i, true))
                    = (n', c, true) ->
                    i <= c /\ (all_chars ip_char (drop (c - i) (String x s)) = true ->
                               all_chars ip_char (String x s) = true)).
    { destruct (i =? 0)%nat; [discriminate|]. intros [= _ <-].
      split; [lia|]. now rewrite Nat.sub_diag. }
    assert (Hgo : forall m, ip_char x = true ->
                    (if (net.big <=? m)%Z then (0%Z, i, false)
                     else net.xtoi_loop s m (S i)) = (n', c, true) ->
                    i <= c /\ (all_chars ip_char (drop (c - i) (String x s)) = true ->
                               all_chars ip_char (String x s) = true)).
    { intros m Hx. destruct (net.big <=? m)%Z; [discriminate|].
      intros H. apply IH in H as [Hle Hrest]. split; [lia|].
      replace (c - i) with (S (c - S i)) by lia. simpl. intros Hd.
      now rewrite (Hrest Hd), Hx. }
    unfold ip_char in Hgo.
    destruct (net.between "0" "9" x) eqn:E1; [now apply Hgo|].
    destruct (net.between "a" "f" x) eqn:E2; [now apply Hgo|].
    destruct (net.between "A" "F" x) eqn:E3; [now apply Hgo|].
    exact Hstop.
Qed.

Lemma xtoi_chars (s : string) (n : Z) (c : nat) :
  net.xtoi s = (n, c, true) ->
  all_chars ip_char (drop c s) = true -> all_chars ip_char s = true.
Proof.
  intros H. apply xtoi_loop_chars in H as [_ H].
  now rewrite Nat.sub_0_r in H.
Qed.

Lemma parseIPv4_loop_chars (k : nat) :
  forall i s p p' s',
    net.parseIPv4_loop k i s p = Some (p', s') ->
    all_chars ip_char s' = true -> all_chars ip_char s = true.
Proof.
  induction k as [|k IH]; intros i s p p' s'; simpl net.parseIPv4_loop.
  - now intros [= _ <-].
  - destruct s as [|c0 s1]; [discriminate|].
    destruct (0 <? i)%nat.
    + destruct (Ascii.eqb c0 ".") eqn:Edot; [|discriminate].
      destruct (net.dtoi s1) as [[n c] ok] eqn:Ed.
      destruct ok; simpl negb; simpl orb; [|discriminate].
      destruct (0xFF <? n)%Z; [discriminate|].
      intros H Hs'. apply IH in H; [|exact Hs'].
      simpl. rewrite (dtoi_chars _ _ _ Ed H).
      unfold ip_char. rewrite Edot. now rewrite !orb_true_r.
    + destruct (net.dtoi (String c0 s1)) as [[n c] ok] eqn:Ed.
      destruct ok; simpl negb; simpl orb; [|discriminate].
      destruct (0xFF <? n)%Z; [discriminate|].
      intros H Hs'. apply IH in H; [|exact Hs'].
      exact (dtoi_chars _ _ _ Ed H).
Qed.

Lemma parseIPv4_chars (s : string) (ip : net.IP) :
  net.parseIPv4 s = Some ip -> all_chars ip_char s = true.
Proof.
  unfold net.parseIPv4.
  destruct (net.parseIPv4_loop net.IPv4len 0 s []) as [[p s']|] eqn:E;
    [|discriminate].
  destruct s' as [|? ?].
  - intros _. now apply (parseIPv4_loop_chars _ _ _ _ _ _ E).
  - now destruct p as [|? [|? [|? [|? [|? ?]]]]].
Qed.

Lemma parseIPv6_round_chars (st : net.v6state) :
  round_keeps_chars st (net.parseIPv6_round st).
Proof.
  destruct st as [ip ellipsis i s]. unfold net.parseIPv6_round.
  destruct (net.xtoi s) as [[n c] ok] eqn:Ex.
  destruct ok; simpl negb; simpl orb; [|exact I].
  destruct (0xFFFF <? n)%Z; [exact I|].
  pose proof (xtoi_chars _ _ _ Ex) as Hx.
  match goal with |- context [if ?b then _ else _] => destruct b end.
  - match goal with |- context [if ?b then _ else _] => destruct b end;
      [exact I|].
    destruct (net.IPv6len <? i + net.IPv4len)%nat; [exact I|].
    destruct (net.parseIPv4 s) as [ip4|] eqn:E4; [|exact I].
    simpl. intros _. exact (parseIPv4_chars _ _ E4).
  - destruct (drop c s) as [|c0 s1] eqn:Ed.
    + simpl. intros _. now apply Hx.
    + destruct (Ascii.eqb c0 ":") eqn:E0; cbn [negb orb]; [|exact I].
      match goal with |- context [if ?b then net.ReturnNil else _] =>
        destruct b end; [exact I|].
      assert (Hc0 : ip_char c0 = true).
      { unfold ip_char. rewrite E0. now rewrite !orb_true_r. }
      destruct s1 as [|c1 s2]; [exact I|].
      destruct (Ascii.eqb c1 ":") eqn:E1.
      * assert (Hc1 : ip_char c1 = true).
        { unfold ip_char. rewrite E1. now rewrite !orb_true_r. }
        destruct ellipsis; [exact I|].
        destruct (String.length s2 =? 0)%nat; simpl; intros H; apply Hx;
          simpl; now rewrite Hc0, Hc1, H.
      * simpl. intros H. apply Hx. simpl in *. now rewrite Hc0, H.
Qed.

(** A round that continues has stored one 16-bit chunk. *)
Lemma parseIPv6_round_advances (st st' : net.v6state) :
  net.parseIPv6_round st = net.Continue st' ->
  net.v6_i st' = net.v6_i st + 2.
Proof.
  destruct st as [ip ellipsis i s]. unfold net.parseIPv6_round.
  destruct (net.xtoi s) as [[n c] ok].
  repeat match goal with
         | |- (if ?b then _ else _) = _ -> _ => destruct b
         | |- match ?x with _ => _ end = _ -> _ => destruct x
         end; try discriminate; now intros [= <-].
Qed.

(** The loop of [parseIPv6] never runs out of rounds: with the rounds that
    bring [i] to [IPv6len], any larger number gives the same result. *)
Lemma parseIPv6_loop_fuel (fuel : nat) :
  forall st fuel',
    net.IPv6len <= net.v6_i st + 2 * fuel -> fuel <= fuel' ->
    net.parseIPv6_loop fuel' st = net.parseIPv6_loop fuel st.
Proof.
  induction fuel as [|fuel IH]; intros st fuel' Hi Hf.
  - destruct fuel'; cbn [net.parseIPv6_loop];
      destruct (Nat.leb_spec net.IPv6len (net.v6_i st)); try reflexivity; lia.
  - destruct fuel' as [|fuel']; [lia|]. cbn [net.parseIPv6_loop].
    destruct (net.IPv6len <=? net.v6_i st)%nat; [reflexivity|].
    destruct (net.parseIPv6_round st) as [|st1|st1] eqn:E; try reflexivity.
    apply parseIPv6_round_advances in E. apply IH; lia.
Qed.

Lemma parseIPv6_loop_chars (fuel : nat) :
  forall st st',
    net.parseIPv6_loop fuel st = Some st' ->
    all_chars ip_char (net.v6_s st') = true ->
    all_chars ip_char (net.v6_s st) = true.
Proof.
  induction fuel as [|fuel IH]; intros st st'; cbn [net.parseIPv6_loop].
  - destruct (net.IPv6len <=? net.v6_i st)%nat; [|discriminate].
    now intros [= <-].
  - destruct (net.IPv6len <=? net.v6_i st)%nat; [now intros [= <-]|].
    pose proof (parseIPv6_round_chars st) as Hr.
    destruct (net.parseIPv6_round st) as [|st1|st1]; [discriminate| |].
    + intros [= <-]. exact Hr.
    + intros H Hs'. apply Hr. exact (IH _ _ H Hs').
Qed.

Lemma parseIPv6_tail_chars (st : net.v6state) (ip : net.IP) :
  net.parseIPv6_tail st = Some ip -> all_chars ip_char (net.v6_s st) = true.
Proof.
  unfold net.parseIPv6_tail.
  destruct (net.parseIPv6_loop (net.IPv6len / 2) st) as [[ip' e i s]|] eqn:E;
    [|discriminate].
  destruct s as [|x s]; [|discriminate]. intros _.
  now apply (parseIPv6_loop_chars _ _ _ E).
Qed.

Lemma parseIPv6_chars (s : string) (ip : net.IP) :
  net.parseIPv6 s = Some ip -> all_chars ip_char s = true.
Proof.
  unfold net.parseIPv6.
  assert (Hplain : net.parseIPv6_tail
                     (net.mk_v6state (repeat 0%Z net.IPv6len) None 0 s) = Some ip ->
                   all_chars ip_char s = true).
  { intros H. exact (parseIPv6_tail_chars _ _ H). }
  destruct s as [|c0 s1]; [exact Hplain|].
  destruct (Ascii.eqb c0 ":") eqn:E0.
  2:{ intros H. apply Hplain. revert H.
      destruct c0 as [[] [] [] [] [] [] [] []]; try discriminate E0;
        exact (fun H => H). }
  apply Ascii.eqb_eq in E0 as ->.
  destruct s1 as [|c1 s2]; [exact Hplain|].
  destruct (Ascii.eqb c1 ":") eqn:E1.
  2:{ intros H. apply Hplain. revert H.
      destruct c1 as [[] [] [] [] [] [] [] []]; try discriminate E1;
        exact (fun H => H). }
  apply Ascii.eqb_eq in E1 as ->.
  destruct (String.length s2 =? 0)%nat eqn:El.
  - intros _. destruct s2; [reflexivity | discriminate].
  - intros H. apply parseIPv6_tail_chars in H. simpl in H. simpl. exact H.
Qed.

Lemma ParseIP_scan_chars (rest s : string) (ip : net.IP) :
  net.ParseIP_scan rest s = Some ip -> all_chars ip_char s = true.
Proof.
  induction rest as [|x rest IH]; simpl; [discriminate|].
  destruct (Ascii.eqb x "."); [apply parseIPv4_chars|].
  destruct (Ascii.eqb x ":"); [apply parseIPv6_chars | exact IH].
Qed.

(** An IP literal is made of hexadecimal digits, dots and colons. *)
Lemma ParseIP_chars (s : string) (ip : net.IP) :
  net.ParseIP s = Some ip -> all_chars ip_char s = true.
Proof. apply ParseIP_scan_chars. Qed.

Lemma ip_chars_no_delimiter (c : ascii) (s : string) :
  ip_char c = false -> all_chars ip_char s = true ->
  strings.Contains s (String c "") = false.
Proof.
  intros Hc. induction s as [|x s IH]; [reflexivity|]. simpl. intros H.
  apply andb_true_iff in H as [Hx Hs].
  rewrite Contains_cons, (IH Hs), orb_false_r.
  destruct (Ascii.eqb x c) eqn:E; [|reflexivity].
  apply Ascii.eqb_eq in E. congruence.
Qed.

(** No IP literal holds a scope delimiter. *)
Lemma ParseIP_no_ScopeDelim (s : string) :
  strings.Contains s report.ScopeDelim = true -> net.ParseIP s = None.
Proof.
  intros Hs. destruct (net.ParseIP s) as [ip|] eqn:E; [|reflexivity].
  apply ParseIP_chars in E.
  apply (ip_chars_no_delimiter ";") in E; [|reflexivity].
  unfold report.ScopeDelim in Hs. congruence.
Qed.

(** ** Address node IDs and the loopback policy *)

Lemma isLoopback_spec (address : string) :
  report.isLoopback address = true <->
  exists ip, net.ParseIP address = Some ip /\ net.IsLoopback ip = true.
Proof.
  unfold report.isLoopback. destruct (net.ParseIP address) as [ip|]; split.
  - intros H. now exists ip.
  - now intros (ip' & [= <-] & H).
  - discriminate.
  - now intros (ip' & [=] & _).
Qed.

Lemma MakeAddressNodeID_scoped (hostID address : string) :
  report.isLoopback address = true ->
  report.MakeAddressNodeID hostID address
  = hostID ++ report.ScopeDelim ++ address.
Proof. intros H. unfold report.MakeAddressNodeID. now rewrite H. Qed.

Lemma MakeAddressNodeID_unscoped (hostID address : string) :
  report.isLoopback address = false ->
  report.MakeAddressNodeID hostID address = report.ScopeDelim ++ address.
Proof. intros H. unfold report.MakeAddressNodeID. now rewrite H. Qed.

(** C2: [MakeAddressNodeID] puts the hostID in front exactly when the
    address parses as an IP literal that is a loopback address, and
    leaves the scope empty otherwise, also when the address is not an IP
    literal at all.  So the ID of 8.8.8.8 is the same for any two hosts,
    and the IDs of 127.0.0.1 for two different, delimiter-free hostIDs
    differ. *)
Theorem address_node_id_loopback_scoping (hostID address h1 h2 : string) :
  ((exists ip, net.ParseIP address = Some ip /\ net.IsLoopback ip = true) ->
   report.MakeAddressNodeID hostID address
   = hostID ++ report.ScopeDelim ++ address)
  /\ (~ (exists ip, net.ParseIP address = Some ip /\ net.IsLoopback ip = true) ->
      report.MakeAddressNodeID hostID address = report.ScopeDelim ++ address)
  /\ (net.ParseIP address = None ->
      report.MakeAddressNodeID hostID address = report.ScopeDelim ++ address)
  /\ report.MakeAddressNodeID h1 "8.8.8.8" = report.MakeAddressNodeID h2 "8.8.8.8"
  /\ (h1 <> h2 ->
      strings.Contains h1 report.ScopeDelim = false ->
      strings.Contains h1 report.EdgeDelim = false ->
      strings.Contains h2 report.ScopeDelim = false ->
      strings.Contains h2 report.EdgeDelim = false ->
      report.MakeAddressNodeID h1 "127.0.0.1"
      <> report.MakeAddressNodeID h2 "127.0.0.1").
Proof.
  split; [|split; [|split; [|split]]].
  - intros H. apply MakeAddressNodeID_scoped. now apply isLoopback_spec.
  - intros H. apply MakeAddressNodeID_unscoped.
    destruct (report.isLoopback address) eqn:E; [|reflexivity].
    apply isLoopback_spec in E. contradiction.
  - intros H. apply MakeAddressNodeID_unscoped.
    unfold report.isLoopback. now rewrite H.
  - assert (E : report.isLoopback "8.8.8.8" = false) by (vm_compute; reflexivity).
    now rewrite !MakeAddressNodeID_unscoped.
  - intros Hne S1 _ S2 _.
    assert (E : report.isLoopback "127.0.0.1" = true) by (vm_compute; reflexivity).
    rewrite !MakeAddressNodeID_scoped by exact E. intros Heq.
    pose proof (ParseNodeID_hit h1 "127.0.0.1" S1) as P1.
    pose proof (ParseNodeID_hit h2 "127.0.0.1" S2) as P2.
    rewrite Heq, P2 in P1. congruence.
Qed.

Lemma address_node_id_loopback_scoping_witness :
  (exists ip, net.ParseIP "127.0.0.1" = Some ip /\ net.IsLoopback ip = true)
  /\ net.ParseIP "db.internal" = None
  /\ "host-a" <> "host-b"
  /\ report.MakeAddressNodeID "host-a" "127.0.0.1" = "host-a;127.0.0.1"
  /\ report.MakeAddressNodeID "host-a" "db.internal" = ";db.internal"
  /\ report.MakeAddressNodeID "host-a" "127.0.0.1"
     <> report.MakeAddressNodeID "host-b" "127.0.0.1".
Proof.
  assert (Hlo : exists ip, net.ParseIP "127.0.0.1" = Some ip
                           /\ net.IsLoopback ip = true).
  { exists (net.IPv4 127 0 0 1). split; reflexivity. }
  assert (Hne : "host-a" <> "host-b") by discriminate.
  split; [exact Hlo|]. split; [reflexivity|]. split; [exact Hne|].
  destruct (address_node_id_loopback_scoping
              "host-a" "127.0.0.1" "host-a" "host-b") as (H1 & _ & _ & _ & H5).
  destruct (address_node_id_loopback_scoping
              "host-a" "db.internal" "host-a" "host-b") as (_ & _ & H3 & _).
  split; [exact (H1 Hlo)|]. split; [exact (H3 eq_refl)|].
  exact (H5 Hne eq_refl eq_refl eq_refl eq_refl).
Defined.

(** ** Addressers *)

(** The endpoint addresser in terms of all the fields of the ID: the
    split bounded at 3 has three fields as soon as the ID has three or
    more, and its field 1 is then field 1 of the ID. *)
Lemma EndpointIDAddresser_fields (id : string) :
  let fields := strings.Split id report.ScopeDelim in
  report.EndpointIDAddresser id
  = Returns (if (3 <=? List.length fields)%nat
             then net.ParseIP (nth 1 fields "") else None).
Proof.
  cbv zeta. unfold report.EndpointIDAddresser, report.ScopeDelim.
  change 3%Z with (Z.of_nat 3). rewrite SplitN_split_loop.
  rewrite Split_length.
  pose proof (split_loop_length ";" id 2) as Hlen.
  destruct (le_lt_dec 2 (strings.Count id ";")) as [Hge | Hlt].
  - rewrite Hlen. replace (Nat.min 2 (strings.Count id ";") + 1) with 3 by lia.
    cbn [Nat.eqb negb]. unfold at_index.
    rewrite (split_loop_nth_error ";" id 2 (strings.Count id ";") 1) by lia.
    rewrite <- Split_split_loop.
    rewrite (nth_error_nth' _ "") by (rewrite Split_length; lia).
    cbn [bind].
    destruct (Nat.leb_spec 3 (strings.Count id ";" + 1)); [reflexivity | lia].
  - destruct (Nat.eqb_spec (List.length (strings.split_loop 2 id ";")) 3) as [E|_];
      [lia|]. cbn [negb].
    destruct (Nat.leb_spec 3 (strings.Count id ";" + 1)); [lia | reflexivity].
Qed.

(** The address addresser in terms of all the fields of the ID: the
    split bounded at 2 keeps further delimiters in its field 1, which is
    then no IP literal. *)
Lemma AddressIDAddresser_fields (id : string) :
  let fields := strings.Split id report.ScopeDelim in
  report.AddressIDAddresser id
  = Returns (if (List.length fields =? 2)%nat
             then net.ParseIP (nth 1 fields "") else None).
Proof.
  cbv zeta. unfold report.AddressIDAddresser.
  destruct (fields_cases ";" id) as [Hs | (a & b & -> & Ha)].
  - unfold report.ScopeDelim. rewrite SplitN_2_miss, Split_miss by assumption.
    reflexivity.
  - unfold report.ScopeDelim.
    change (a ++ String ";" b) with (a ++ ";" ++ b) at 1 2.
    rewrite SplitN_2_hit by assumption. cbn [List.length Nat.eqb negb].
    unfold at_index. cbn [nth_error bind].
    change (a ++ ";" ++ b) with (a ++ String ";" b).
    rewrite Split_hit by assumption. cbn [List.length nth].
    destruct (strings.Contains b ";") eqn:Hb.
    + rewrite (ParseIP_no_ScopeDelim b Hb).
      assert (strings.Count b ";" <> 0).
      { intros H0. apply Count_zero in H0. congruence. }
      rewrite Split_length.
      destruct (Nat.eqb_spec (S (strings.Count b ";" + 1)) 2); [lia | reflexivity].
    + now rewrite Split_miss.
Qed.

(** C3, as the code has it: [EndpointIDAddresser] answers the IP of field
    1 exactly when the ID has three scope-delimited fields or more and
    field 1 is an IP literal, and [nil] otherwise; so it finds 10.0.0.1
    in the endpoint node ID made from it.  [AddressIDAddresser] answers
    the IP of field 1 exactly when the ID has exactly two fields and
    field 1 is an IP literal, and [nil] otherwise, so on an ID of one
    field. *)
Theorem id_addressers (id hostID : string) :
  let fields := strings.Split id report.ScopeDelim in
  report.EndpointIDAddresser id
  = Returns (if (3 <=? List.length fields)%nat
             then net.ParseIP (nth 1 fields "") else None)
  /\ report.AddressIDAddresser id
     = Returns (if (List.length fields =? 2)%nat
                then net.ParseIP (nth 1 fields "") else None)
  /\ report.EndpointIDAddresser
       (report.MakeEndpointNodeID hostID "10.0.0.1" "80")
     = Returns (Some (net.IPv4 10 0 0 1))
  /\ (List.length fields = 1 -> report.AddressIDAddresser id = Returns None).
Proof.
  cbv zeta.
  split; [apply EndpointIDAddresser_fields|].
  split; [apply AddressIDAddresser_fields|].
  split.
  - unfold report.MakeEndpointNodeID.
    rewrite MakeAddressNodeID_unscoped by (vm_compute; reflexivity).
    vm_compute. reflexivity.
  - intros H. rewrite AddressIDAddresser_fields. cbv zeta. now rewrite H.
Qed.

Lemma id_addressers_witness :
  List.length (strings.Split "10.0.0.1" report.ScopeDelim) = 1
  /\ report.AddressIDAddresser "10.0.0.1" = Returns None.
Proof.
  split; [reflexivity|].
  apply (id_addressers "10.0.0.1" "host-a"). reflexivity.
Defined.

(** C3 as the spec words it fails: an ID of four fields is no ID of
    "exactly 3 scope-delimited fields", and the endpoint addresser still
    answers the IP of its field 1. *)
Lemma endpoint_addresser_four_fields :
  List.length (strings.Split "h;10.0.0.1;80;x" report.ScopeDelim) = 4
  /\ report.EndpointIDAddresser "h;10.0.0.1;80;x"
     = Returns (Some (net.IPv4 10 0 0 1))
  /\ ~ (forall id,
          List.length (strings.Split id report.ScopeDelim) <> 3 ->
          report.EndpointIDAddresser id = Returns None).
Proof.
  split; [reflexivity|]. split; [reflexivity|].
  intros H. specialize (H "h;10.0.0.1;80;x"). 
  assert (E : report.EndpointIDAddresser "h;10.0.0.1;80;x"
              = Returns (Some (net.IPv4 10 0 0 1))) by reflexivity.
  rewrite H in E; [discriminate|]. vm_compute. discriminate.
Qed.

(** * Further properties of id.go *)

(** ** More on strings *)

Lemma append_inv_tail (a b s : string) : a ++ s = b ++ s -> a = b.
Proof.
  revert b; induction a as [|x a IH]; intros [|y b] H; simpl in H.
  - reflexivity.
  - apply (f_equal String.length) in H. simpl in H.
    rewrite length_append in H. lia.
  - apply (f_equal String.length) in H. simpl in H.
    rewrite length_append in H. lia.
  - injection H as -> H. f_equal. now apply IH.
Qed.

Lemma HasPrefix_one (c : ascii) (s : string) :
  strings.HasPrefix s (String c "") = true -> exists s', s = String c s'.
Proof.
  unfold strings.HasPrefix. destruct s as [|x s]; simpl; [discriminate|].
  destruct (ascii_dec c x) as [->|]; [|discriminate]. intros _. now exists s.
Qed.

Section OneByteSeparatorCounts.

Variable c : ascii.
Local Abbreviation sep := (String c EmptyString).

(** The separators of [a ++ b] are those of [a] and those of [b]. *)
Lemma Count_append (a b : string) :
  strings.Count (a ++ b) sep = strings.Count a sep + strings.Count b sep.
Proof.
  induction a as [a Ha | a1 a2 Ha1 IH] using (fields_ind c).
  - rewrite (Count_miss c a Ha). cbn [Nat.add].
    destruct (fields_cases c b) as [Hb | (b1 & b2 & -> & Hb1)].
    + rewrite !Count_miss; [reflexivity | assumption |].
      now rewrite Contains_append, Ha, Hb.
    + rewrite <- append_assoc. rewrite !Count_hit; [reflexivity | assumption |].
      now rewrite Contains_append, Ha, Hb1.
  - rewrite append_assoc. cbn [append].
    rewrite !Count_hit by assumption. now rewrite IH.
Qed.

Lemma Count_sep (b : string) :
  strings.Count (String c b) sep = S (strings.Count b sep).
Proof. now apply (Count_hit c "" b). Qed.

(** What the split bounded at 2 makes of a string. *)
Lemma SplitN_2_cases (s : string) :
  (strings.Contains s sep = false /\ strings.SplitN s sep 2 = [s])
  \/ (exists a b, s = a ++ sep ++ b /\ strings.Contains a sep = false
                  /\ strings.SplitN s sep 2 = [a; b]).
Proof.
  destruct (fields_cases c s) as [Hs | (a & b & -> & Ha)].
  - left. split; [exact Hs | now apply SplitN_2_miss].
  - right. exists a, b. repeat split; [exact Ha|].
    now apply (SplitN_2_hit c a b).
Qed.

(** [strings.Split] undoes [strings.Join] on fields without separator. *)
Lemma Split_Join (rest : list string) :
  forall a0,
    Forall (fun f => strings.Contains f sep = false) (a0 :: rest) ->
    strings.Split (strings.Join (a0 :: rest) sep) sep = a0 :: rest.
Proof.
  induction rest as [|a1 rest IH]; intros a0 H; inversion H as [|? ? H0 Hrest]; subst.
  - now apply Split_miss.
  - rewrite Join_cons. cbn [append]. rewrite Split_hit by assumption.
    f_equal. now apply IH.
Qed.

End OneByteSeparatorCounts.

(** ** Inverting the parsers *)

Lemma ParseNodeID_inv (nodeID hostID remainder : string) :
  report.ParseNodeID nodeID = Returns (hostID, remainder, true) ->
  nodeID = hostID ++ report.ScopeDelim ++ remainder
  /\ strings.Contains hostID report.ScopeDelim = false.
Proof.
  unfold report.ParseNodeID, report.ScopeDelim.
  destruct (SplitN_2_cases ";" nodeID) as [[_ ->] | (a & b & -> & Ha & ->)].
  - discriminate.
  - cbn. now intros [= <- <-].
Qed.

Lemma ParseEdgeID_inv (edgeID src dst : string) :
  report.ParseEdgeID edgeID = Returns (src, dst, true) ->
  edgeID = src ++ report.EdgeDelim ++ dst
  /\ strings.Contains src report.EdgeDelim = false.
Proof.
  unfold report.ParseEdgeID, report.EdgeDelim.
  destruct (SplitN_2_cases "|" edgeID) as [[_ ->] | (a & b & -> & Ha & ->)].
  - discriminate.
  - cbn. now intros [= <- <-].
Qed.

Lemma Contains_node_id (c : ascii) (hostID x : string) :
  Ascii.eqb ";" c = false ->
  strings.Contains hostID (String c "") = false ->
  strings.Contains x (String c "") = false ->
  strings.Contains (hostID ++ report.ScopeDelim ++ x) (String c "") = false.
Proof.
  intros Hc Hh Hx. unfold report.ScopeDelim. cbn [append].
  now rewrite Contains_append, Contains_cons, Hh, Hx, Hc.
Qed.

(** ** ParseNodeID *)

(** X1: a successful [ParseNodeID] loses nothing: the host ID has no
    scope delimiter, and joining the two results with the delimiter, as
    [MakeProcessNodeID] does, gives the parsed node ID back. *)
Theorem parse_node_id_sound (nodeID hostID remainder : string) :
  report.ParseNodeID nodeID = Returns (hostID, remainder, true) ->
  report.MakeProcessNodeID hostID remainder = nodeID
  /\ strings.Contains hostID report.ScopeDelim = false.
Proof.
  intros H. apply ParseNodeID_inv in H as [-> Hh]. now split.
Qed.

Lemma parse_node_id_sound_witness :
  report.ParseNodeID "host-a;10.0.0.1;80" = Returns ("host-a", "10.0.0.1;80", true)
  /\ report.MakeProcessNodeID "host-a" "10.0.0.1;80" = "host-a;10.0.0.1;80"
  /\ strings.Contains "host-a" report.ScopeDelim = false.
Proof.
  split; [reflexivity|].
  apply (parse_node_id_sound "host-a;10.0.0.1;80"). reflexivity.
Defined.

(** X2: [ParseNodeID] reports success exactly on the strings that hold a
    scope delimiter. *)
Theorem parse_node_id_ok_iff (nodeID : string) :
  (exists hostID remainder,
     report.ParseNodeID nodeID = Returns (hostID, remainder, true))
  <-> strings.Contains nodeID report.ScopeDelim = true.
Proof.
  split.
  - intros (h & r & H). apply ParseNodeID_inv in H as [-> _].
    unfold report.ScopeDelim. cbn [append].
    rewrite Contains_append, Contains_sep. apply orb_true_r.
  - intros H. unfold report.ScopeDelim in H.
    destruct (fields_cases ";" nodeID) as [Hs | (a & b & -> & Ha)];
      [congruence|].
    exists a, b. now apply (ParseNodeID_hit a b).
Qed.

Lemma parse_node_id_ok_iff_witness :
  strings.Contains ";8.8.8.8" report.ScopeDelim = true
  /\ exists hostID remainder,
       report.ParseNodeID ";8.8.8.8" = Returns (hostID, remainder, true).
Proof.
  split; [reflexivity|].
  apply (parse_node_id_ok_iff ";8.8.8.8"). reflexivity.
Defined.

(** X3: the round trip through [MakeProcessNodeID] and [ParseNodeID]
    holds exactly when the hostID has no scope delimiter; what follows
    the hostID may hold any character. *)
Theorem process_node_id_round_trip_iff (hostID pid : string) :
  report.ParseNodeID (report.MakeProcessNodeID hostID pid)
    = Returns (hostID, pid, true)
  <-> strings.Contains hostID report.ScopeDelim = false.
Proof.
  split.
  - intros H. now apply ParseNodeID_inv in H.
  - apply ParseNodeID_hit.
Qed.

Lemma process_node_id_round_trip_iff_witness :
  strings.Contains "host-a" report.ScopeDelim = false
  /\ report.ParseNodeID (report.MakeProcessNodeID "host-a" "a;b|c")
     = Returns ("host-a", "a;b|c", true).
Proof.
  split; [reflexivity|].
  apply (process_node_id_round_trip_iff "host-a" "a;b|c"). reflexivity.
Defined.

(** X4: [MakeProcessNodeID], and so [MakeContainerNodeID], gives
    different IDs to different pairs of parts, as long as the hostIDs have
    no scope delimiter. *)
Theorem process_node_id_injective (h1 x1 h2 x2 : string) :
  strings.Contains h1 report.ScopeDelim = false ->
  strings.Contains h2 report.ScopeDelim = false ->
  report.MakeProcessNodeID h1 x1 = report.MakeProcessNodeID h2 x2 ->
  h1 = h2 /\ x1 = x2.
Proof.
  intros H1 H2 Heq.
  pose proof (ParseNodeID_hit h1 x1 H1) as P1.
  pose proof (ParseNodeID_hit h2 x2 H2) as P2.
  unfold report.MakeProcessNodeID in Heq. rewrite Heq, P2 in P1.
  split; congruence.
Qed.

Lemma process_node_id_injective_witness :
  strings.Contains "host-a" report.ScopeDelim = false
  /\ report.MakeProcessNodeID "host-a" "4711"
     = report.MakeProcessNodeID "host-a" "4711"
  /\ "host-a" = "host-a" /\ "4711" = "4711".
Proof.
  split; [reflexivity|]. split; [reflexivity|].
  apply (process_node_id_injective "host-a" "4711" "host-a" "4711");
    reflexivity.
Defined.

(** X5: the constructors do not look at their parts: a scope delimiter
    inside the hostID moves the border between the parts, so two
    different pairs of parts get one ID. *)
Theorem process_node_id_delimiter_collision (a b x : string) :
  report.MakeProcessNodeID (a ++ report.ScopeDelim ++ b) x
  = report.MakeProcessNodeID a (b ++ report.ScopeDelim ++ x)
  /\ report.ParseNodeID (report.MakeProcessNodeID (a ++ report.ScopeDelim ++ b) x)
     <> Returns (a ++ report.ScopeDelim ++ b, x, true).
Proof.
  split.
  - unfold report.MakeProcessNodeID. now rewrite append_assoc.
  - intros H. apply ParseNodeID_inv in H as [_ H]. revert H.
    unfold report.ScopeDelim. cbn [append].
    now rewrite Contains_append, Contains_sep, orb_true_r.
Qed.

Lemma process_node_id_delimiter_collision_witness :
  report.MakeProcessNodeID "a;b" "c" = report.MakeProcessNodeID "a" "b;c"
  /\ report.ParseNodeID (report.MakeProcessNodeID "a;b" "c")
     <> Returns ("a;b", "c", true).
Proof. exact (process_node_id_delimiter_collision "a" "b" "c"). Defined.

(** ** ParseEdgeID *)

(** X6: a successful [ParseEdgeID] loses nothing: the source node ID has
    no edge delimiter, and [MakeEdgeID] of the two results is the parsed
    edge ID. *)
Theorem parse_edge_id_sound (edgeID src dst : string) :
  report.ParseEdgeID edgeID = Returns (src, dst, true) ->
  report.MakeEdgeID src dst = edgeID
  /\ strings.Contains src report.EdgeDelim = false.
Proof.
  intros H. apply ParseEdgeID_inv in H as [-> Hs]. now split.
Qed.

Lemma parse_edge_id_sound_witness :
  report.ParseEdgeID "a|b|c" = Returns ("a", "b|c", true)
  /\ report.MakeEdgeID "a" "b|c" = "a|b|c"
  /\ strings.Contains "a" report.EdgeDelim = false.
Proof.
  split; [reflexivity|]. apply (parse_edge_id_sound "a|b|c"). reflexivity.
Defined.

(** X7: [ParseEdgeID] reports success exactly on the strings that hold an
    edge delimiter; so it does on every edge ID [MakeEdgeID] makes. *)
Theorem parse_edge_id_ok_iff (edgeID a b : string) :
  ((exists src dst, report.ParseEdgeID edgeID = Returns (src, dst, true))
   <-> strings.Contains edgeID report.EdgeDelim = true)
  /\ exists src dst,
       report.ParseEdgeID (report.MakeEdgeID a b) = Returns (src, dst, true).
Proof.
  assert (Hiff : forall e,
             (exists src dst, report.ParseEdgeID e = Returns (src, dst, true))
             <-> strings.Contains e report.EdgeDelim = true).
  { intros e. split.
    - intros (s & d & H). apply ParseEdgeID_inv in H as [-> _].
      unfold report.EdgeDelim. cbn [append].
      rewrite Contains_append, Contains_sep. apply orb_true_r.
    - intros H. unfold report.EdgeDelim in H.
      destruct (fields_cases "|" e) as [Hs | (s & d & -> & Hs)]; [congruence|].
      exists s, d. now apply (ParseEdgeID_hit s d). }
  split; [apply Hiff|]. apply Hiff.
  unfold report.MakeEdgeID, report.EdgeDelim. cbn [append].
  rewrite Contains_append, Contains_sep. apply orb_true_r.
Qed.

Lemma parse_edge_id_ok_iff_witness :
  strings.Contains "x|y" report.EdgeDelim = true
  /\ exists src dst, report.ParseEdgeID "x|y" = Returns (src, dst, true).
Proof.
  split; [reflexivity|].
  apply (parse_edge_id_ok_iff "x|y" "" ""). reflexivity.
Defined.

(** X8: the round trip through [MakeEdgeID] and [ParseEdgeID] holds
    exactly when the source node ID has no edge delimiter; the
    destination may hold one. *)
Theorem edge_id_round_trip_iff (src dst : string) :
  report.ParseEdgeID (report.MakeEdgeID src dst) = Returns (src, dst, true)
  <-> strings.Contains src report.EdgeDelim = false.
Proof.
  split.
  - intros H. now apply ParseEdgeID_inv in H.
  - apply ParseEdgeID_hit.
Qed.

Lemma edge_id_round_trip_iff_witness :
  strings.Contains "h1;10.0.0.1" report.EdgeDelim = false
  /\ report.ParseEdgeID (report.MakeEdgeID "h1;10.0.0.1" "x|y")
     = Returns ("h1;10.0.0.1", "x|y", true).
Proof.
  split; [reflexivity|].
  apply (edge_id_round_trip_iff "h1;10.0.0.1" "x|y"). reflexivity.
Defined.

(** X9: [MakeEdgeID] gives different IDs to different pairs of node IDs,
    as long as the source node IDs have no edge delimiter. *)
Theorem edge_id_injective (a1 b1 a2 b2 : string) :
  strings.Contains a1 report.EdgeDelim = false ->
  strings.Contains a2 report.EdgeDelim = false ->
  report.MakeEdgeID a1 b1 = report.MakeEdgeID a2 b2 ->
  a1 = a2 /\ b1 = b2.
Proof.
  intros H1 H2 Heq.
  pose proof (ParseEdgeID_hit a1 b1 H1) as P1.
  pose proof (ParseEdgeID_hit a2 b2 H2) as P2.
  unfold report.MakeEdgeID in Heq. rewrite Heq, P2 in P1.
  split; congruence.
Qed.

Lemma edge_id_injective_witness :
  strings.Contains "h1;a" report.EdgeDelim = false
  /\ report.MakeEdgeID "h1;a" "h2;b" = report.MakeEdgeID "h1;a" "h2;b"
  /\ "h1;a" = "h1;a" /\ "h2;b" = "h2;b".
Proof.
  split; [reflexivity|]. split; [reflexivity|].
  apply (edge_id_injective "h1;a" "h2;b" "h1;a" "h2;b"); reflexivity.
Defined.

(** X10: a node ID made of parts without edge delimiter is no edge ID:
    [ParseEdgeID] fails on it. *)
Theorem node_id_is_no_edge_id (hostID x : string) :
  strings.Contains hostID report.EdgeDelim = false ->
  strings.Contains x report.EdgeDelim = false ->
  report.ParseEdgeID (report.MakeProcessNodeID hostID x)
  = Returns ("", "", false).
Proof.
  intros Hh Hx. apply ParseEdgeID_miss. unfold report.MakeProcessNodeID.
  now apply Contains_node_id.
Qed.

Lemma node_id_is_no_edge_id_witness :
  strings.Contains "host-a" report.EdgeDelim = false
  /\ strings.Contains "4711" report.EdgeDelim = false
  /\ report.ParseEdgeID (report.MakeProcessNodeID "host-a" "4711")
     = Returns ("", "", false).
Proof.
  split; [reflexivity|]. split; [reflexivity|].
  apply (node_id_is_no_edge_id "host-a" "4711"); reflexivity.
Defined.

(** X11: an edge between two process node IDs decodes to its four parts:
    [ParseEdgeID] first, then [ParseNodeID] on each side, when the parts
    of the source have no edge delimiter and the hostIDs no scope
    delimiter. *)
Theorem edge_of_node_ids_decodes (h1 x1 h2 x2 : string) :
  strings.Contains h1 report.ScopeDelim = false ->
  strings.Contains h1 report.EdgeDelim = false ->
  strings.Contains x1 report.EdgeDelim = false ->
  strings.Contains h2 report.ScopeDelim = false ->
  (e <- report.ParseEdgeID
          (report.MakeEdgeID (report.MakeProcessNodeID h1 x1)
                             (report.MakeProcessNodeID h2 x2)) ;;
   src <- report.ParseNodeID (fst (fst e)) ;;
   dst <- report.ParseNodeID (snd (fst e)) ;;
   Returns (src, dst, snd e))
  = Returns ((h1, x1, true), (h2, x2, true), true).
Proof.
  intros S1 E1 Ex1 S2. unfold report.MakeEdgeID.
  rewrite ParseEdgeID_hit
    by (unfold report.MakeProcessNodeID; now apply Contains_node_id).
  cbn [bind fst snd]. unfold report.MakeProcessNodeID.
  rewrite !ParseNodeID_hit by assumption. reflexivity.
Qed.

Lemma edge_of_node_ids_decodes_witness :
  strings.Contains "h1" report.ScopeDelim = false
  /\ (e <- report.ParseEdgeID "h1;10.0.0.1|h2;10.0.0.2" ;;
      src <- report.ParseNodeID (fst (fst e)) ;;
      dst <- report.ParseNodeID (snd (fst e)) ;;
      Returns (src, dst, snd e))
     = Returns (("h1", "10.0.0.1", true), ("h2", "10.0.0.2", true), true).
Proof.
  split; [reflexivity|].
  apply (edge_of_node_ids_decodes "h1" "10.0.0.1" "h2" "10.0.0.2");
    reflexivity.
Defined.

(** ** Adjacency IDs, again *)

(** X12: [ParseAdjacencyID] succeeds with a node ID exactly on the
    adjacency ID [MakeAdjacencyID] makes of that node ID; so
    [MakeAdjacencyID] is injective and no other string parses. *)
Theorem parse_adjacency_id_iff (adjacencyID nodeID : string) :
  report.ParseAdjacencyID adjacencyID = Returns (nodeID, true)
  <-> adjacencyID = report.MakeAdjacencyID nodeID.
Proof.
  split.
  - unfold report.ParseAdjacencyID.
    destruct (strings.HasPrefix adjacencyID ">") eqn:E; cbn [negb];
      [|discriminate].
    apply HasPrefix_one in E as [s' ->]. cbn. now intros [= <-].
  - intros ->. unfold report.ParseAdjacencyID, report.MakeAdjacencyID,
      strings.HasPrefix. simpl. now destruct nodeID.
Qed.

Lemma parse_adjacency_id_iff_witness :
  report.ParseAdjacencyID ">host-a;4711" = Returns ("host-a;4711", true)
  /\ ">host-a;4711" = report.MakeAdjacencyID "host-a;4711".
Proof.
  split; [reflexivity|].
  apply (parse_adjacency_id_iff ">host-a;4711" "host-a;4711"). reflexivity.
Defined.

(** ** Host node IDs, again *)

(** X13: [ParseNodeID] splits a host node ID into the hostID and the
    marker ["<host>"], when the hostID has no scope delimiter. *)
Theorem host_node_id_round_trip (hostID : string) :
  strings.Contains hostID report.ScopeDelim = false ->
  report.ParseNodeID (report.MakeHostNodeID hostID)
  = Returns (hostID, "<host>", true).
Proof. intros H. unfold report.MakeHostNodeID. now apply ParseNodeID_hit. Qed.

Lemma host_node_id_round_trip_witness :
  strings.Contains "probe-7" report.ScopeDelim = false
  /\ report.ParseNodeID (report.MakeHostNodeID "probe-7")
     = Returns ("probe-7", "<host>", true).
Proof.
  split; [reflexivity|]. apply (host_node_id_round_trip "probe-7"). reflexivity.
Defined.

(** X14: a host node ID is never the probe's hostID it was made from (the
    suffix is there to elicit failures when a hostID is used as a node
    ID), and different hostIDs get different host node IDs, whatever
    characters they hold. *)
Theorem host_node_id_distinct (h1 h2 : string) :
  report.MakeHostNodeID h1 <> h1
  /\ (report.MakeHostNodeID h1 = report.MakeHostNodeID h2 -> h1 = h2).
Proof.
  unfold report.MakeHostNodeID. split.
  - intros H. apply (f_equal String.length) in H.
    rewrite !length_append in H. simpl in H. lia.
  - apply append_inv_tail.
Qed.

Lemma host_node_id_distinct_witness :
  report.MakeHostNodeID "a;<host>" <> "a;<host>"
  /\ (report.MakeHostNodeID "a;<host>" = report.MakeHostNodeID "a;<host>"
      -> "a;<host>" = "a;<host>").
Proof. exact (host_node_id_distinct "a;<host>" "a;<host>"). Defined.

(** ** Address and endpoint node IDs *)

(** X15: [ParseNodeID] splits an address node ID into its scope and the
    address: the scope is the hostID for a loopback address and blank
    otherwise.  The hostID must have no scope delimiter. *)
Theorem address_node_id_round_trip (hostID address : string) :
  strings.Contains hostID report.ScopeDelim = false ->
  report.ParseNodeID (report.MakeAddressNodeID hostID address)
  = Returns (if report.isLoopback address then hostID else "", address, true).
Proof.
  intros H. unfold report.MakeAddressNodeID.
  destruct (report.isLoopback address); cbn [negb];
    now apply ParseNodeID_hit.
Qed.

Lemma address_node_id_round_trip_witness :
  strings.Contains "host-a" report.ScopeDelim = false
  /\ report.ParseNodeID (report.MakeAddressNodeID "host-a" "::1")
     = Returns ("host-a", "::1", true)
  /\ report.ParseNodeID (report.MakeAddressNodeID "host-a" "192.168.1.1")
     = Returns ("", "192.168.1.1", true).
Proof.
  split; [reflexivity|]. split.
  - apply (address_node_id_round_trip "host-a" "::1"). reflexivity.
  - apply (address_node_id_round_trip "host-a" "192.168.1.1"). reflexivity.
Defined.

(** X16: an address that is no loopback address has one address node ID
    on all hosts, and a loopback address has different address node IDs
    on different hosts; this holds for every address and all hostIDs. *)
Theorem address_node_id_scoping (h1 h2 address : string) :
  (report.isLoopback address = false ->
   report.MakeAddressNodeID h1 address = report.MakeAddressNodeID h2 address)
  /\ (report.isLoopback address = true ->
      report.MakeAddressNodeID h1 address = report.MakeAddressNodeID h2 address ->
      h1 = h2).
Proof.
  split; intros Hlo.
  - now rewrite !MakeAddressNodeID_unscoped.
  - rewrite !MakeAddressNodeID_scoped by assumption.
    apply append_inv_tail.
Qed.

Lemma address_node_id_scoping_witness :
  report.isLoopback "10.1.2.3" = false
  /\ report.isLoopback "127.0.0.53" = true
  /\ report.MakeAddressNodeID "host-a" "10.1.2.3"
     = report.MakeAddressNodeID "host-b" "10.1.2.3"
  /\ (report.MakeAddressNodeID "host-a" "127.0.0.53"
      = report.MakeAddressNodeID "host-a" "127.0.0.53" -> "host-a" = "host-a").
Proof.
  split; [reflexivity|]. split; [reflexivity|]. split.
  - apply (address_node_id_scoping "host-a" "host-b" "10.1.2.3"). reflexivity.
  - apply (address_node_id_scoping "host-a" "host-a" "127.0.0.53"). reflexivity.
Defined.

(** X17: an address that holds a scope or an edge delimiter, or any other
    character no IP literal has, is never scoped by the hostID. *)
Theorem address_with_delimiter_unscoped (hostID address : string) :
  all_chars ip_char address = false ->
  report.MakeAddressNodeID hostID address = report.ScopeDelim ++ address.
Proof.
  intros H. apply MakeAddressNodeID_unscoped. unfold report.isLoopback.
  destruct (net.ParseIP address) as [ip|] eqn:E; [|reflexivity].
  apply ParseIP_chars in E. congruence.
Qed.

Lemma address_with_delimiter_unscoped_witness :
  all_chars ip_char "127.0.0.1;x" = false
  /\ report.MakeAddressNodeID "host-a" "127.0.0.1;x" = ";127.0.0.1;x".
Proof.
  split; [reflexivity|].
  apply (address_with_delimiter_unscoped "host-a" "127.0.0.1;x"). reflexivity.
Defined.

(** X18: [ParseNodeID] splits an endpoint node ID into the scope of its
    address and, as the remainder, the address and the port joined by the
    scope delimiter. *)
Theorem endpoint_node_id_parse (hostID address port : string) :
  strings.Contains hostID report.ScopeDelim = false ->
  report.ParseNodeID (report.MakeEndpointNodeID hostID address port)
  = Returns (if report.isLoopback address then hostID else "",
             address ++ report.ScopeDelim ++ port, true).
Proof.
  intros H. unfold report.MakeEndpointNodeID, report.MakeAddressNodeID.
  destruct (report.isLoopback address); cbn [negb];
    rewrite !append_assoc; now apply ParseNodeID_hit.
Qed.

Lemma endpoint_node_id_parse_witness :
  strings.Contains "host-a" report.ScopeDelim = false
  /\ report.ParseNodeID (report.MakeEndpointNodeID "host-a" "127.0.0.1" "8080")
     = Returns ("host-a", "127.0.0.1;8080", true).
Proof.
  split; [reflexivity|].
  apply (endpoint_node_id_parse "host-a" "127.0.0.1" "8080"). reflexivity.
Defined.

(** ** Addressers on the node IDs of the constructors *)

(** X19: [EndpointIDAddresser] finds in an endpoint node ID the address
    it was made from: it answers what [net.ParseIP] makes of the address,
    whatever the port, when hostID and address have no scope delimiter. *)
Theorem endpoint_addresser_on_endpoint_id (hostID address port : string) :
  strings.Contains hostID report.ScopeDelim = false ->
  strings.Contains address report.ScopeDelim = false ->
  report.EndpointIDAddresser (report.MakeEndpointNodeID hostID address port)
  = Returns (net.ParseIP address).
Proof.
  intros Hh Ha.
  assert (Hgen : forall scope,
             strings.Contains scope ";" = false ->
             report.EndpointIDAddresser
               ((scope ++ report.ScopeDelim ++ address) ++ report.ScopeDelim ++ port)
             = Returns (net.ParseIP address)).
  { intros scope Hs. unfold report.EndpointIDAddresser, report.ScopeDelim in *.
    change 3%Z with (Z.of_nat 3). rewrite SplitN_split_loop.
    rewrite append_assoc. cbn [append].
    rewrite split_loop_hit by assumption.
    rewrite split_loop_hit by assumption. reflexivity. }
  unfold report.MakeEndpointNodeID, report.MakeAddressNodeID.
  destruct (report.isLoopback address); cbn [negb]; now apply Hgen.
Qed.

Lemma endpoint_addresser_on_endpoint_id_witness :
  strings.Contains "host-a" report.ScopeDelim = false
  /\ strings.Contains "::1" report.ScopeDelim = false
  /\ report.EndpointIDAddresser (report.MakeEndpointNodeID "host-a" "::1" "443")
     = Returns (net.ParseIP "::1").
Proof.
  split; [reflexivity|]. split; [reflexivity|].
  apply (endpoint_addresser_on_endpoint_id "host-a" "::1" "443"); reflexivity.
Defined.

(** X20: [AddressIDAddresser] finds in an address node ID the address it
    was made from: it answers what [net.ParseIP] makes of the address,
    whatever the address, when the hostID has no scope delimiter. *)
Theorem address_addresser_on_address_id (hostID address : string) :
  strings.Contains hostID report.ScopeDelim = false ->
  report.AddressIDAddresser (report.MakeAddressNodeID hostID address)
  = Returns (net.ParseIP address).
Proof.
  intros Hh.
  assert (Hgen : forall scope,
             strings.Contains scope ";" = false ->
             report.AddressIDAddresser (scope ++ report.ScopeDelim ++ address)
             = Returns (net.ParseIP address)).
  { intros scope Hs. unfold report.AddressIDAddresser, report.ScopeDelim.
    now rewrite SplitN_2_hit. }
  unfold report.MakeAddressNodeID.
  destruct (report.isLoopback address); cbn [negb]; now apply Hgen.
Qed.

Lemma address_addresser_on_address_id_witness :
  strings.Contains "host-a" report.ScopeDelim = false
  /\ report.AddressIDAddresser (report.MakeAddressNodeID "host-a" "172.16.0.9")
     = Returns (net.ParseIP "172.16.0.9").
Proof.
  split; [reflexivity|].
  apply (address_addresser_on_address_id "host-a" "172.16.0.9"). reflexivity.
Defined.

(** X21: [AddressIDAddresser] finds no address in an endpoint node ID,
    whatever the parts: the port and its delimiter stay in the field it
    parses. *)
Theorem address_addresser_on_endpoint_id (hostID address port : string) :
  report.AddressIDAddresser (report.MakeEndpointNodeID hostID address port)
  = Returns None.
Proof.
  rewrite AddressIDAddresser_fields. cbv zeta. unfold report.ScopeDelim at 1.
  rewrite Split_length.
  unfold report.MakeEndpointNodeID, report.MakeAddressNodeID, report.ScopeDelim.
  cbn [append]. repeat (rewrite ?Count_append, ?Count_sep).
  match goal with |- context [(?n =? 2)%nat] =>
    destruct (Nat.eqb_spec n 2) as [E|_]; [lia | reflexivity] end.
Qed.

(** X22: [EndpointIDAddresser] finds no address in an address node ID,
    when hostID and address have no scope delimiter: there is no third
    field. *)
Theorem endpoint_addresser_on_address_id (hostID address : string) :
  strings.Contains hostID report.ScopeDelim = false ->
  strings.Contains address report.ScopeDelim = false ->
  report.EndpointIDAddresser (report.MakeAddressNodeID hostID address)
  = Returns None.
Proof.
  intros Hh Ha. rewrite EndpointIDAddresser_fields. cbv zeta.
  unfold report.ScopeDelim in *. rewrite Split_length.
  assert (Hc : strings.Count (report.MakeAddressNodeID hostID address) ";" = 1).
  { unfold report.MakeAddressNodeID, report.ScopeDelim.
    destruct (report.isLoopback address); cbn [negb append];
      rewrite ?Count_append, Count_sep, ?(Count_miss ";" hostID Hh),
        (Count_miss ";" address Ha); reflexivity. }
  now rewrite Hc.
Qed.

Lemma endpoint_addresser_on_address_id_witness :
  strings.Contains "host-a" report.ScopeDelim = false
  /\ strings.Contains "127.0.0.1" report.ScopeDelim = false
  /\ report.EndpointIDAddresser (report.MakeAddressNodeID "host-a" "127.0.0.1")
     = Returns None.
Proof.
  split; [reflexivity|]. split; [reflexivity|].
  apply (endpoint_addresser_on_address_id "host-a" "127.0.0.1"); reflexivity.
Defined.

(** X23: [EndpointIDAddresser] and [AddressIDAddresser] return on every
    string: the guard on the number of fields keeps [fields[1]] in
    range, so neither panics. *)
Theorem addressers_never_panic (id : string) :
  (exists ip, report.EndpointIDAddresser id = Returns ip)
  /\ (exists ip, report.AddressIDAddresser id = Returns ip).
Proof.
  split.
  - rewrite EndpointIDAddresser_fields. eexists. reflexivity.
  - rewrite AddressIDAddresser_fields. eexists. reflexivity.
Qed.

(** X24: [AddressIDAddresser] finds no address in a host node ID,
    whatever the hostID: the marker ["<host>"] is no IP literal. *)
Theorem address_addresser_on_host_id (hostID : string) :
  report.AddressIDAddresser (report.MakeHostNodeID hostID) = Returns None.
Proof.
  unfold report.MakeHostNodeID, report.AddressIDAddresser, report.ScopeDelim.
  destruct (fields_cases ";" hostID) as [Hh | (a & b & -> & Ha)].
  - now rewrite SplitN_2_hit.
  - rewrite append_assoc. change (String ";" b ++ ";" ++ "<host>")
      with (";" ++ (b ++ ";" ++ "<host>")).
    rewrite SplitN_2_hit by assumption. cbn.
    f_equal. apply ParseIP_no_ScopeDelim. unfold report.ScopeDelim.
    cbn [append]. rewrite Contains_append, Contains_sep. apply orb_true_r.
Qed.

(** ** Pseudo node IDs, again *)

(** X25: the fields of a pseudo node ID are ["pseudo"] and the parts it
    was made from, in their order, when no part has a scope delimiter. *)
Theorem pseudo_node_id_fields (parts : list string) :
  Forall (fun part => strings.Contains part report.ScopeDelim = false) parts ->
  strings.Split (report.MakePseudoNodeID parts) report.ScopeDelim
  = "pseudo" :: parts.
Proof.
  intros H. unfold report.MakePseudoNodeID, report.ScopeDelim in *.
  cbn [app]. apply Split_Join. now constructor.
Qed.

Lemma pseudo_node_id_fields_witness :
  Forall (fun part => strings.Contains part report.ScopeDelim = false)
         [report.TheInternet; "10.0.0.1"]
  /\ strings.Split (report.MakePseudoNodeID [report.TheInternet; "10.0.0.1"])
                   report.ScopeDelim
     = ["pseudo"; report.TheInternet; "10.0.0.1"].
Proof.
  assert (H : Forall (fun part => strings.Contains part report.ScopeDelim = false)
                     [report.TheInternet; "10.0.0.1"]).
  { repeat constructor. }
  split; [exact H|]. exact (pseudo_node_id_fields _ H).
Defined.
